(** * NHD-0216K3Z character LCD driver: protocol and text layout

    Shallow embedding of [NHD_0216K3Z.py].  Python integers are [Z], a
    Python [str] is the list of its Unicode code points, the class
    attribute [special_chars] is a finite map, and the driver object is a
    record holding the I2C address together with the log of every
    [write_byte] call made on the bus.  Methods run in a small state and
    exception monad over that record. *)

From Stdlib Require Import ZArith List Lia Bool.
From stdpp Require Import gmap list.

Open Scope Z_scope.

(** ** Python prelude *)

Module Py.

(** A string is its sequence of code points. *)
Abbreviation str := (list Z).

Definition len {A} (l : list A) : Z := Z.of_nat (length l).

(** [str.isspace] on a single character: the code points CPython treats
    as whitespace. *)
Definition isspace (c : Z) : bool :=
  ((0x09 <=? c) && (c <=? 0x0D))
  || ((0x1C <=? c) && (c <=? 0x20))
  || (c =? 0x85) || (c =? 0xA0) || (c =? 0x1680)
  || ((0x2000 <=? c) && (c <=? 0x200A))
  || (c =? 0x2028) || (c =? 0x2029) || (c =? 0x202F)
  || (c =? 0x205F) || (c =? 0x3000).

(** [str.split()] without arguments.  [cur] holds the characters of the
    word being scanned, most recent first. *)
Fixpoint split_from (cur : str) (s : str) : list str :=
  match s with
  | [] => match cur with [] => [] | _ :: _ => [rev cur] end
  | c :: s' =>
      if isspace c then
        match cur with
        | [] => split_from [] s'
        | _ :: _ => rev cur :: split_from [] s'
        end
      else split_from (c :: cur) s'
  end.

Definition split (s : str) : list str := split_from [] s.

(** [" " * n] *)
Definition spaces (n : nat) : str := replicate n 0x20.

(** [range(n)] for an integer [n]: empty when [n <= 0]. *)
Definition range (n : Z) : list nat := seq 0 (Z.to_nat n).

End Py.

(** ** Exceptions, driver state and the method monad *)

Inductive exn : Type :=
| UnsupportedCharacter (char : Z)   (* ValueError: _get_char_code *)
| CodeOutOfByteRange                (* ValueError: write_char_from_code *)
| CursorOffScreen                   (* ValueError: set_cursor_pos *)
| ContrastOutOfRange                (* ValueError: set_contrast *)
| BrightnessOutOfRange              (* ValueError: set_backlight_brightness *)
| SlotOutOfRange                    (* ValueError: load_custom_character *)
| BadBitmap                         (* ValueError: load_custom_character *)
| IndexError.                       (* msg[i] out of range *)

Inductive outcome (A : Type) : Type :=
| Return (a : A)
| Raise (e : exn).
Arguments Return {A} a.
Arguments Raise {A} e.

(** The object: [i2c_addr] and the bus, observed as the list of
    [(address, value)] pairs passed to [write_byte], oldest first. *)
Record lcd : Type := Lcd { i2c_addr : Z; bus : list (Z * Z) }.

Definition M (A : Type) : Type := lcd -> outcome A * lcd.

Definition ret {A} (a : A) : M A := fun s => (Return a, s).

Definition raise {A} (e : exn) : M A := fun s => (Raise e, s).

Definition bind {A B} (m : M A) (k : A -> M B) : M B :=
  fun s =>
    match m s with
    | (Return a, s') => k a s'
    | (Raise e, s') => (Raise e, s')
    end.

Definition lift {A} (o : outcome A) : M A := fun s => (o, s).

Notation "x <- m ;; k" := (bind m (fun x => k))
  (at level 100, m at next level, right associativity).
Notation "m ;; k" := (bind m (fun _ => k))
  (at level 100, right associativity).

Definition when (b : bool) (m : M unit) : M unit := if b then m else ret tt.

(** [for x in xs: body(x)] *)
Fixpoint for_each {A} (xs : list A) (body : A -> M unit) : M unit :=
  match xs with
  | [] => ret tt
  | x :: xs' => body x ;; for_each xs' body
  end.

(** [self.i2c_bus.write_byte(self.i2c_addr, value)] *)
Definition write_byte (value : Z) : M unit :=
  fun s => (Return tt, Lcd (i2c_addr s) (bus s ++ [(i2c_addr s, value)])).

(** The state reached from [s] after the bytes [bs] went out, one
    [write_byte] each, to the address held by [s]. *)
Definition sent (bs : list Z) (s : lcd) : lcd :=
  Lcd (i2c_addr s) (bus s ++ map (pair (i2c_addr s)) bs).

(** The values written on the bus, in order. *)
Definition bytes_of (s : lcd) : list Z := map snd (bus s).

(** ** The driver class *)

Module NHD_0216K3Z.
Import Py.

(** Code points of the keys of [special_chars]. *)
Definition yen := 0xA5.
Definition right_arrow := 0x2192.
Definition left_arrow := 0x2190.
Definition degree := 0xB0.
Definition alpha := 0x3B1.
Definition a_umlaut := 0xE4.
Definition n_tilde := 0xF1.
Definition o_umlaut := 0xF6.
Definition beta := 0x3B2.
Definition open_E := 0x190.
Definition mu := 0x3BC.
Definition sigma := 0x3C3.
Definition rho := 0x3C1.
Definition sqrt_sign := 0x221A.
Definition cent := 0xA2.
Definition theta := 0x3B8.
Definition infinity := 0x221E.
Definition Omega := 0x3A9.
Definition Sigma := 0x3A3.
Definition pi := 0x3C0.
Definition division := 0xF7.
Definition black_square := 0x25A0.

(** "User Defined Custom Characters": '\0' .. '\7'. *)
Definition custom_char_items : list (Z * Z) :=
  [ (0, 0x00); (1, 0x01); (2, 0x02); (3, 0x03);
    (4, 0x04); (5, 0x05); (6, 0x06); (7, 0x07) ].

(** "Other Non-Ascii Special Characters", in source order. *)
Definition symbol_items : list (Z * Z) :=
  [ (yen, 0x5C); (right_arrow, 0x7E); (left_arrow, 0x7F); (degree, 0xDF);
    (alpha, 0xE0); (a_umlaut, 0xE1); (n_tilde, 0xEE); (o_umlaut, 0xEF);
    (beta, 0xE2); (open_E, 0xE3); (mu, 0xE4); (sigma, 0xE5); (rho, 0xE6);
    (sqrt_sign, 0xE8); (cent, 0xEC);
    (theta, 0xF2); (infinity, 0xF3); (Omega, 0xF4); (Sigma, 0xF6);
    (pi, 0xF7); (division, 0xFD); (black_square, 0xFF) ].

Definition special_chars : gmap Z Z :=
  list_to_map (custom_char_items ++ symbol_items).

Definition _send_cmd (cmd : Z) (params : list Z) : M unit :=
  write_byte 0xFE ;;
  write_byte cmd ;;
  for_each params (fun byte => write_byte byte).

(** [char in self.special_chars] is the lookup; [ord(char)] is the code
    point itself. *)
Definition _get_char_code (char : Z) : outcome Z :=
  match special_chars !! char with
  | Some code => Return code
  | None =>
      let ascii_code := char in
      if (ascii_code >=? 32) && (ascii_code <=? 125) && negb (ascii_code =? 92)
      then Return ascii_code
      else Raise (UnsupportedCharacter char)
  end.

Definition write_char_from_code (code : Z) : M unit :=
  if (code <? 0) || (code >? 0xFF) then raise CodeOutOfByteRange
  else write_byte code.

Definition write (msg : str) : M unit :=
  for_each msg (fun char =>
    char_code <- lift (_get_char_code char) ;;
    write_byte char_code).

(** The local [pos] of [set_cursor_pos]. *)
Definition pos (line column : Z) : Z := (line - 1) * 0x40 + (column - 1).

Definition set_cursor_pos (line column : Z) : M unit :=
  if (column <? 1) || (column >? 16) || (line <? 1) || (line >? 2)
  then raise CursorOffScreen
  else _send_cmd 0x45 [pos line column].

Definition clear_line (line : Z) : M unit :=
  set_cursor_pos line 1 ;;
  write (spaces 16) ;;
  set_cursor_pos line 1.

Definition write_line (msg : str) (line : Z) (centered : bool) : M bool :=
  clear_line line ;;
  let length := len msg in
  let start_col := if centered then 1 + (16 - length) / 2 else 1 in
  set_cursor_pos line start_col ;;
  write msg ;;
  ret (length <=? 16).

Definition display_on : M unit := _send_cmd 0x41 [].
Definition display_off : M unit := _send_cmd 0x42 [].
Definition home_cursor : M unit := _send_cmd 0x46 [].
Definition clear_screen : M unit := _send_cmd 0x51 [].
Definition backspace : M unit := _send_cmd 0x4E [].

Definition underline_cursor (enabled : bool) : M unit :=
  if enabled then _send_cmd 0x47 [] else _send_cmd 0x48 [].

Definition blinking_cursor (enabled : bool) : M unit :=
  if enabled then _send_cmd 0x4B [] else _send_cmd 0x4C [].

Definition shift_cursor_left (spaces : Z) : M unit :=
  for_each (range spaces) (fun _ => _send_cmd 0x49 []).

Definition shift_cursor_right (spaces : Z) : M unit :=
  for_each (range spaces) (fun _ => _send_cmd 0x4A []).

Definition shift_display_left (spaces : Z) : M unit :=
  for_each (range spaces) (fun _ => _send_cmd 0x55 []).

Definition shift_display_right (spaces : Z) : M unit :=
  for_each (range spaces) (fun _ => _send_cmd 0x56 []).

(** The word loop of [disp_msg]; [i] is the running count and the
    result is its value when the loop ends. *)
Fixpoint words_loop (words : list str) (i : Z) : M Z :=
  match words with
  | [] => ret i
  | word :: rest =>
      when (negb (i =? 16) && negb (i =? 0)) (write [0x20]) ;;
      when (i + len word >? 16) (set_cursor_pos 2 1) ;;
      write word ;;
      words_loop rest (i + len word + 1)
  end.

(** The body of the character loop of [disp_msg] at index [i]. *)
Definition chars_step (msg : str) (i : nat) : M unit :=
  when (Nat.eqb i 16) (set_cursor_pos 2 1) ;;
  match msg !! i with
  | Some char => write [char]
  | None => raise IndexError
  end.

Definition disp_msg (msg : str) (preserve_words : bool) : M bool :=
  clear_screen ;;
  home_cursor ;;
  if preserve_words then
    i <- words_loop (split msg) 0 ;;
    ret (i <=? 33)
  else
    for_each (range (len msg)) (chars_step msg) ;;
    ret (len msg <=? 32).

Definition set_contrast (contrast : Z) : M unit :=
  if (contrast <? 1) || (contrast >? 50) then raise ContrastOutOfRange
  else _send_cmd 0x52 [contrast].

Definition set_backlight_brightness (brightness : Z) : M unit :=
  if (brightness <? 1) || (brightness >? 8) then raise BrightnessOutOfRange
  else _send_cmd 0x53 [brightness].

Definition load_custom_character (custom_char_slot : Z) (bitmap : list Z)
  : M unit :=
  if (custom_char_slot <? 0) || (custom_char_slot >? 7)
  then raise SlotOutOfRange
  else if negb (len bitmap =? 8)
          || negb (forallb (fun i => (i <? 0x1F) && (i >=? 0)) bitmap)
  then raise BadBitmap
  else _send_cmd 0x54 (custom_char_slot :: bitmap).

Definition disp_custom_chars : M unit :=
  write_line [0; 1; 2; 3; 4; 5; 6; 7] 1 false ;;
  write_line [48; 49; 50; 51; 52; 53; 54; 55] 2 false ;;
  ret tt.

Definition change_rs232_baud_rate (baud_rate : Z) : M unit :=
  _send_cmd 0x61 [baud_rate].

Definition change_i2c_address (new_addr : Z) : M unit :=
  _send_cmd 0x62 [new_addr] ;;
  fun s => (Return tt, Lcd new_addr (bus s)).

Definition disp_firmware_version : M unit := _send_cmd 0x70 [].
Definition disp_rs232_baud_rate : M unit := _send_cmd 0x71 [].
Definition disp_i2c_address : M unit := _send_cmd 0x72 [].

End NHD_0216K3Z.

(** ** Specification-side vocabulary *)

Import Py NHD_0216K3Z.

(** [encodes char code]: the encoder maps [char] to the byte [code]. *)
Definition encodes (char code : Z) : Prop := _get_char_code char = Return code.

(** Code points of the 22 symbols of the special table, in source order. *)
Definition symbol_keys : list Z := map fst symbol_items.

(** The legal input set of the encoder as the specification gives it. *)
Definition in_legal_set (c : Z) : Prop :=
  0 <= c <= 7 \/ c ∈ symbol_keys \/ (32 <= c <= 125 /\ c <> 92).

(** The bytes of the character table as the specification publishes
    them: 0x5C, 0x7E, 0x7F, 0xDF, 0xE0-0xE6, 0xE8, 0xEC, 0xF2-0xF7, 0xFD,
    0xFF. *)
Definition published_bytes : list Z :=
  [0x5C; 0x7E; 0x7F; 0xDF; 0xE0; 0xE1; 0xE2; 0xE3; 0xE4; 0xE5; 0xE6;
   0xE8; 0xEC; 0xF2; 0xF3; 0xF4; 0xF5; 0xF6; 0xF7; 0xFD; 0xFF].

(** The framed bytes of [clear_line line]: position, sixteen blanks,
    position again. *)
Definition clear_line_bytes (line : Z) : list Z :=
  [0xFE; 0x45; pos line 1] ++ replicate 16 0x20 ++ [0xFE; 0x45; pos line 1].

(** The two framed commands every [disp_msg] starts with. *)
Definition screen_reset_bytes : list Z := [0xFE; 0x51; 0xFE; 0x46].

(** The framed jump to line 2, column 1. *)
Definition line2_jump_bytes : list Z := [0xFE; 0x45; 0x40].

(** Word layout as the specification words it, over words already
    encoded: a blank before the word unless the running count is 16 or 0,
    a jump to line 2 first when the word would pass column 16, then the
    word; the count grows by the word length plus one.  Returns the bytes
    and the final count. *)
Fixpoint word_layout (i : Z) (ws : list (list Z)) : list Z * Z :=
  match ws with
  | [] => ([], i)
  | w :: rest =>
      let sep := if decide (i <> 16 /\ i <> 0) then [0x20] else [] in
      let jump := if decide (i + len w > 16) then line2_jump_bytes else [] in
      let '(bs, i') := word_layout (i + len w + 1) rest in
      (sep ++ jump ++ w ++ bs, i')
  end.

(** Character layout as the specification words it: the first sixteen
    codes, then, when there are more, the jump and the remaining codes. *)
Definition char_layout (codes : list Z) : list Z :=
  take 16 codes ++
  (if decide (len codes > 16) then line2_jump_bytes ++ drop 16 codes else []).

(** The running count after the words [ws], started at [i]: every word
    adds its length plus one. *)
Fixpoint count_after (i : Z) (ws : list (list Z)) : Z :=
  match ws with
  | [] => i
  | w :: rest => count_after (i + len w + 1) rest
  end.

(** A character that [split] does not treat as a separator, and a word:
    a non-empty run of such characters. *)
Definition nonspace (c : Z) : Prop := isspace c = false.

Definition is_word (w : str) : Prop := w <> [] /\ Forall nonspace w.

(** A display at the factory I2C address with nothing written yet. *)
Definition lcd0 : lcd := Lcd 0x28 [].

(** Sample texts: "HELLO", "ab cd", "A" * n, and three spellings of the
    words "a", "b". *)
Definition HELLO : str := [72; 69; 76; 76; 79].
Definition ab_cd : str := [97; 98; 32; 99; 100].
Definition A_times (n : nat) : str := replicate n 65.
Definition a_2sp_b : str := [97; 32; 32; 98].
Definition sp_a_b_sp : str := [32; 97; 32; 98; 32].
Definition a_nl_b : str := [97; 10; 98].

(** [" ".join(words)]: the words separated by single blanks. *)
Fixpoint blank_join (words : list str) : str :=
  match words with
  | [] => []
  | [w] => w
  | w :: rest => w ++ 0x20 :: blank_join rest
  end.

(** A whitespace character, for [split]. *)
Definition space (c : Z) : Prop := isspace c = true.

(** Sample texts with an unsupported character: "ab c~" and a lone
    backslash. *)
Definition ab_c_tilde : str := [97; 98; 32; 99; 126].
Definition backslash : str := [92].

(** [appends m]: whatever its outcome, running [m] keeps the address of
    the object and only adds writes, all of them to that address. *)
Definition appends {A} (m : M A) : Prop :=
  forall s, exists bs, snd (m s) = sent bs s.

(** ** The method monad *)

Section Monad.

Lemma sent_nil s : sent [] s = s.
Proof. destruct s; unfold sent; simpl. by rewrite app_nil_r. Qed.

Lemma sent_app a b s : sent (a ++ b) s = sent b (sent a s).
Proof. unfold sent; simpl. by rewrite map_app, app_assoc. Qed.

Lemma bytes_of_sent bs s : bytes_of (sent bs s) = bytes_of s ++ bs.
Proof.
  unfold bytes_of, sent; simpl. rewrite map_app, map_map; simpl.
  by rewrite map_id.
Qed.

Lemma sent_inj a b s : sent a s = sent b s -> a = b.
Proof.
  intros H. apply (f_equal bytes_of) in H.
  rewrite !bytes_of_sent in H. by apply app_inv_head in H.
Qed.

Lemma bind_return {A B} (m : M A) (k : A -> M B) s a s' :
  m s = (Return a, s') -> bind m k s = k a s'.
Proof. unfold bind. by intros ->. Qed.

Lemma bind_raise {A B} (m : M A) (k : A -> M B) s e s' :
  m s = (Raise e, s') -> bind m k s = (Raise e, s').
Proof. unfold bind. by intros ->. Qed.

Lemma write_byte_sent b s : write_byte b s = (Return tt, sent [b] s).
Proof. reflexivity. Qed.

Lemma for_each_write_byte bs s :
  for_each bs (fun byte => write_byte byte) s = (Return tt, sent bs s).
Proof.
  revert s. induction bs as [|b bs IH]; intros s; simpl.
  - by rewrite sent_nil.
  - rewrite (bind_return _ _ _ _ _ (write_byte_sent b s)), IH.
    by rewrite <- sent_app.
Qed.

Lemma for_each_app {A} (xs ys : list A) body s s' :
  for_each xs body s = (Return tt, s') ->
  for_each (xs ++ ys) body s = for_each ys body s'.
Proof.
  revert s. induction xs as [|x xs IH]; intros s; simpl.
  - by intros [= ->].
  - unfold bind. destruct (body x s) as [[[]|e] s1]; [|done].
    apply IH.
Qed.

End Monad.

(** ** Framing *)

Section Framing.

Lemma send_cmd_sent cmd params s :
  _send_cmd cmd params s = (Return tt, sent (0xFE :: cmd :: params) s).
Proof.
  unfold _send_cmd.
  rewrite (bind_return _ _ _ _ _ (write_byte_sent _ s)).
  rewrite (bind_return _ _ _ _ _ (write_byte_sent _ _)).
  rewrite for_each_write_byte.
  by rewrite <- !sent_app.
Qed.

Lemma repeat_cmd_sent {A} (xs : list A) cmd s :
  for_each xs (fun _ => _send_cmd cmd []) s
  = (Return tt, sent (mjoin (replicate (length xs) [0xFE; cmd])) s).
Proof.
  revert s. induction xs as [|x xs IH]; intros s; simpl.
  - by rewrite sent_nil.
  - rewrite (bind_return _ _ _ _ _ (send_cmd_sent cmd [] s)), IH.
    by rewrite <- sent_app.
Qed.

Lemma range_length n : length (range n) = Z.to_nat n.
Proof. unfold range. apply length_seq. Qed.

Lemma set_cursor_pos_ok line column s :
  1 <= line <= 2 -> 1 <= column <= 16 ->
  set_cursor_pos line column s
  = (Return tt, sent [0xFE; 0x45; pos line column] s).
Proof.
  intros Hl Hc. unfold set_cursor_pos.
  replace ((column <? 1) || (column >? 16) || (line <? 1) || (line >? 2))
    with false by lia.
  apply send_cmd_sent.
Qed.

Lemma set_cursor_pos_off line column s :
  ~ (1 <= line <= 2 /\ 1 <= column <= 16) ->
  set_cursor_pos line column s = (Raise CursorOffScreen, s).
Proof.
  intros H. unfold set_cursor_pos.
  replace ((column <? 1) || (column >? 16) || (line <? 1) || (line >? 2))
    with true by lia.
  reflexivity.
Qed.

End Framing.

(** ** The character encoder *)

Section Encoder.

Lemma special_keys_split :
  (custom_char_items ++ symbol_items).*1 = [0; 1; 2; 3; 4; 5; 6; 7] ++ symbol_keys.
Proof. reflexivity. Qed.

Lemma special_keys_NoDup : NoDup (custom_char_items ++ symbol_items).*1.
Proof. apply (bool_decide_unpack _). by vm_compute. Qed.

Lemma special_chars_Some c b :
  special_chars !! c = Some b <-> (c, b) ∈ custom_char_items ++ symbol_items.
Proof.
  unfold special_chars. symmetry.
  apply elem_of_list_to_map, special_keys_NoDup.
Qed.

Lemma special_chars_None c :
  special_chars !! c = None <-> ~ (0 <= c <= 7) /\ c ∉ symbol_keys.
Proof.
  unfold special_chars. rewrite <- not_elem_of_list_to_map.
  rewrite special_keys_split, elem_of_app.
  assert (c ∈ [0; 1; 2; 3; 4; 5; 6; 7] <-> 0 <= c <= 7) as ->.
  { rewrite !elem_of_cons, elem_of_nil. lia. }
  tauto.
Qed.

Lemma symbol_keys_range c : c ∈ symbol_keys -> 162 <= c.
Proof.
  unfold symbol_keys. cbn [map symbol_items fst].
  rewrite !elem_of_cons, elem_of_nil.
  unfold yen, right_arrow, left_arrow, degree, alpha, a_umlaut, n_tilde,
    o_umlaut, beta, open_E, mu, sigma, rho, sqrt_sign, cent, theta,
    infinity, Omega, Sigma, pi, division, black_square.
  lia.
Qed.

Lemma get_char_code_special c b :
  special_chars !! c = Some b -> _get_char_code c = Return b.
Proof. unfold _get_char_code. by intros ->. Qed.

Lemma get_char_code_ascii c :
  32 <= c <= 125 -> c <> 92 -> _get_char_code c = Return c.
Proof.
  intros Hr Hb. unfold _get_char_code.
  assert (special_chars !! c = None) as ->.
  { apply special_chars_None. split; [lia|].
    intros Hin%symbol_keys_range. lia. }
  cbv zeta.
  replace ((c >=? 32) && (c <=? 125) && negb (c =? 92)) with true by lia.
  reflexivity.
Qed.

Lemma get_char_code_slot c : 0 <= c <= 7 -> _get_char_code c = Return c.
Proof.
  intros H.
  assert (c = 0 \/ c = 1 \/ c = 2 \/ c = 3 \/ c = 4 \/ c = 5 \/ c = 6 \/ c = 7)
    as Hc by lia.
  by repeat (destruct Hc as [-> | Hc]); try subst c.
Qed.

Lemma get_char_code_symbol c :
  c ∈ symbol_keys -> exists b, (c, b) ∈ symbol_items /\ _get_char_code c = Return b.
Proof.
  unfold symbol_keys. rewrite list_elem_of_fmap.
  intros [[c' b] [-> Hin]]. exists b. split; [done|].
  apply get_char_code_special, special_chars_Some, elem_of_app. by right.
Qed.

Lemma get_char_code_raise c e :
  _get_char_code c = Raise e ->
  e = UnsupportedCharacter c /\ special_chars !! c = None
  /\ ~ (32 <= c <= 125 /\ c <> 92).
Proof.
  unfold _get_char_code. destruct (special_chars !! c); [done|].
  cbv zeta.
  destruct ((c >=? 32) && (c <=? 125) && negb (c =? 92)) eqn:E; [done|].
  intros [= <-]. repeat split; lia.
Qed.

Lemma get_char_code_return c b :
  _get_char_code c = Return b ->
  special_chars !! c = Some b \/ (b = c /\ 32 <= c <= 125 /\ c <> 92).
Proof.
  unfold _get_char_code. destruct (special_chars !! c) as [b'|].
  - intros [= ->]. by left.
  - cbv zeta.
    destruct ((c >=? 32) && (c <=? 125) && negb (c =? 92)) eqn:E; [|done].
    intros [= <-]. right. lia.
Qed.

Lemma get_char_code_outside c :
  ~ in_legal_set c -> _get_char_code c = Raise (UnsupportedCharacter c).
Proof.
  intros Hout. unfold in_legal_set in Hout.
  destruct (_get_char_code c) as [b|e] eqn:E.
  - exfalso. apply Hout.
    destruct (get_char_code_return _ _ E) as [Hs | (_ & Hr & Hb)]; [|tauto].
    destruct (decide (0 <= c <= 7)) as [|Hn]; [tauto|].
    destruct (decide (c ∈ symbol_keys)) as [|Hk]; [tauto|].
    assert (special_chars !! c = None) by (by apply special_chars_None).
    congruence.
  - by destruct (get_char_code_raise _ _ E) as (-> & _).
Qed.

Lemma get_char_code_legal c :
  in_legal_set c -> exists b, _get_char_code c = Return b.
Proof.
  intros [Hs | [Hk | [Hr Hb]]].
  - exists c. by apply get_char_code_slot.
  - destruct (get_char_code_symbol c Hk) as (b & _ & Hb). by exists b.
  - exists c. by apply get_char_code_ascii.
Qed.

End Encoder.

(** ** Writing text at the cursor *)

Section WriteText.

Lemma write_cons_ok c b msg s :
  encodes c b -> write (c :: msg) s = write msg (sent [b] s).
Proof.
  unfold encodes, write. intros H. simpl. unfold bind, lift. by rewrite H.
Qed.

Lemma write_cons_raise c e msg s :
  _get_char_code c = Raise e -> write (c :: msg) s = (Raise e, s).
Proof. unfold write. intros H. simpl. unfold bind, lift. by rewrite H. Qed.

Lemma write_ok msg codes s :
  Forall2 encodes msg codes -> write msg s = (Return tt, sent codes s).
Proof.
  intros H. revert s. induction H as [|c b msg codes Hc _ IH]; intros s.
  - by rewrite sent_nil.
  - rewrite (write_cons_ok _ _ _ _ Hc), IH. by rewrite <- sent_app.
Qed.

Lemma write_raise pre codes c e post s :
  Forall2 encodes pre codes -> _get_char_code c = Raise e ->
  write (pre ++ c :: post) s = (Raise e, sent codes s).
Proof.
  intros H He. revert s. induction H as [|c' b msg codes Hc _ IH]; intros s.
  - simpl. rewrite sent_nil. by apply write_cons_raise.
  - simpl. rewrite (write_cons_ok _ _ _ _ Hc), IH. by rewrite <- sent_app.
Qed.

Lemma spaces_encode n : Forall2 encodes (spaces n) (replicate n 0x20).
Proof. induction n; by constructor. Qed.

Lemma clear_line_ok line s :
  1 <= line <= 2 ->
  clear_line line s = (Return tt, sent (clear_line_bytes line) s).
Proof.
  intros Hl. unfold clear_line, clear_line_bytes.
  rewrite (bind_return _ _ _ _ _ (set_cursor_pos_ok line 1 s Hl ltac:(lia))).
  rewrite (bind_return _ _ _ _ _ (write_ok _ _ _ (spaces_encode 16))).
  rewrite set_cursor_pos_ok by lia.
  by rewrite <- !sent_app.
Qed.

Lemma clear_line_off line s :
  ~ (1 <= line <= 2) -> clear_line line s = (Raise CursorOffScreen, s).
Proof.
  intros Hl. unfold clear_line. apply bind_raise.
  apply set_cursor_pos_off. tauto.
Qed.

End WriteText.

(** ** Line and message layout *)

Section Layout.

Lemma write_line_ok msg codes line centered s :
  1 <= line <= 2 -> Forall2 encodes msg codes ->
  centered = false \/ len msg <= 16 ->
  write_line msg line centered s
  = (Return (len msg <=? 16),
     sent (clear_line_bytes line
           ++ [0xFE; 0x45;
               pos line (if centered then 1 + (16 - len msg) / 2 else 1)]
           ++ codes) s).
Proof.
  intros Hl Hm Hfit. unfold write_line.
  rewrite (bind_return _ _ _ _ _ (clear_line_ok line s Hl)).
  cbv zeta.
  assert (1 <= (if centered then 1 + (16 - len msg) / 2 else 1) <= 16) as Hc.
  { destruct centered; [|lia].
    destruct Hfit as [|Hfit]; [done|].
    assert (0 <= len msg) by (unfold len; lia).
    assert (0 <= (16 - len msg) / 2 <= 8); [|lia].
    split; [apply Z.div_pos; lia|].
    apply Z.div_le_upper_bound; lia. }
  rewrite (bind_return _ _ _ _ _ (set_cursor_pos_ok _ _ _ Hl Hc)).
  rewrite (bind_return _ _ _ _ _ (write_ok _ _ _ Hm)).
  unfold ret. by rewrite <- !sent_app.
Qed.

Lemma write_line_centered_oversize msg line s :
  1 <= line <= 2 -> len msg > 16 ->
  write_line msg line true s
  = (Raise CursorOffScreen, sent (clear_line_bytes line) s).
Proof.
  intros Hl Hlen. unfold write_line.
  rewrite (bind_return _ _ _ _ _ (clear_line_ok line s Hl)).
  cbv zeta. apply bind_raise, set_cursor_pos_off.
  assert ((16 - len msg) / 2 < 0); [|lia].
  apply Z.div_lt_upper_bound; lia.
Qed.

Lemma write_line_bad_line msg line centered s :
  ~ (1 <= line <= 2) ->
  write_line msg line centered s = (Raise CursorOffScreen, s).
Proof.
  intros Hl. unfold write_line. apply bind_raise. by apply clear_line_off.
Qed.

Lemma encodes_len msg codes : Forall2 encodes msg codes -> len msg = len codes.
Proof. intros H. unfold len. by rewrite (Forall2_length _ _ _ H). Qed.

(** A stretch of the character loop that stays clear of index 16. *)
Lemma chars_steps_plain rest codes :
  Forall2 encodes rest codes ->
  forall pre post s,
    (length pre + length rest <= 16 \/ 16 < length pre)%nat ->
    for_each (seq (length pre) (length rest))
             (chars_step (pre ++ rest ++ post)) s
    = (Return tt, sent codes s).
Proof.
  induction 1 as [|c b rest codes Hc _ IH]; intros pre post s Hk.
  - simpl. by rewrite sent_nil.
  - cbn [length seq for_each].
    assert (chars_step (pre ++ (c :: rest) ++ post) (length pre) s
            = (Return tt, sent [b] s)) as Hstep.
    { unfold chars_step.
      replace (Nat.eqb (length pre) 16) with false
        by (symmetry; apply Nat.eqb_neq; simpl in Hk; lia).
      simpl. rewrite list_lookup_middle by done.
      unfold bind, ret. rewrite (write_ok [c] [b]); [done|].
      by repeat constructor. }
    rewrite (bind_return _ _ _ _ _ Hstep).
    specialize (IH (pre ++ [c]) post (sent [b] s)).
    rewrite length_app in IH. simpl in IH.
    replace (length pre + 1)%nat with (S (length pre)) in IH by lia.
    rewrite <- !app_assoc in IH. simpl in IH.
    change ((c :: rest) ++ post) with (c :: rest ++ post).
    rewrite IH by (simpl in Hk; lia).
    by rewrite <- sent_app.
Qed.

Lemma chars_loop_ok msg codes s :
  Forall2 encodes msg codes ->
  for_each (range (len msg)) (chars_step msg) s
  = (Return tt, sent (char_layout codes) s).
Proof.
  intros Hm. unfold range, char_layout. unfold len. rewrite Nat2Z.id.
  pose proof (Forall2_length _ _ _ Hm) as Hlen.
  destruct (decide (Z.of_nat (length codes) > 16)) as [Hbig|Hsmall].
  - (* more than sixteen characters: split the loop at index 16 *)
    assert (exists pre c rest, msg = pre ++ c :: rest /\ length pre = 16%nat)
      as (pre & c & rest & -> & Hpre).
    { exists (take 16 msg).
      destruct (drop 16 msg) as [|c rest] eqn:Hd.
      - apply (f_equal length) in Hd. rewrite length_drop in Hd.
        simpl in Hd. lia.
      - exists c, rest. split.
        + by rewrite <- Hd, take_drop.
        + rewrite length_take. lia. }
    apply Forall2_app_inv_l in Hm as (cpre & crest' & Hcpre & Hcrest & ->).
    apply Forall2_cons_inv_l in Hcrest as (b & crest & Hb & Hcrest & ->).
    pose proof (Forall2_length _ _ _ Hcpre) as Hlpre.
    rewrite take_app_length' by lia.
    rewrite drop_app_length' by lia.
    rewrite length_app. cbn [length].
    replace (length pre + S (length rest))%nat
      with (length pre + (1 + length rest))%nat by lia.
    rewrite seq_app. cbn [seq Nat.add].
    pose proof (chars_steps_plain pre cpre Hcpre [] (c :: rest) s) as H1.
    simpl in H1. rewrite (for_each_app _ _ _ _ _ (H1 ltac:(lia))).
    cbn [for_each].
    assert (chars_step (pre ++ c :: rest) (length pre) (sent cpre s)
            = (Return tt, sent (line2_jump_bytes ++ [b]) (sent cpre s)))
      as Hstep.
    { unfold chars_step. rewrite Hpre. cbn [Nat.eqb when].
      rewrite (bind_return _ _ _ _ _
                 (set_cursor_pos_ok 2 1 _ ltac:(lia) ltac:(lia))).
      rewrite <- Hpre, list_lookup_middle by done.
      rewrite (write_ok [c] [b]) by (by repeat constructor).
      by rewrite <- sent_app. }
    replace (length pre + 0)%nat with (length pre) by lia.
    rewrite (bind_return _ _ _ _ _ Hstep).
    pose proof (chars_steps_plain rest crest Hcrest (pre ++ [c]) []) as H2.
    rewrite length_app in H2. simpl in H2.
    replace (length pre + 1)%nat with (S (length pre)) in H2 by lia.
    rewrite app_nil_r, <- app_assoc in H2. simpl in H2.
    rewrite H2 by lia.
    rewrite <- !sent_app. by rewrite <- !app_assoc.
  - pose proof (chars_steps_plain msg codes Hm [] [] s) as H1.
    simpl in H1. rewrite app_nil_r in H1. rewrite H1 by lia.
    rewrite take_ge by lia. by rewrite app_nil_r.
Qed.

End Layout.

(** ** Word-preserving layout *)

Section Words.

Lemma word_layout_count i ws : snd (word_layout i ws) = count_after i ws.
Proof.
  revert i. induction ws as [|w ws IH]; intros i; simpl; [done|].
  specialize (IH (i + len w + 1)).
  by destruct (word_layout (i + len w + 1) ws).
Qed.

Lemma count_after_lengths i (ws vs : list (list Z)) :
  Forall2 (fun w v => len w = len v) ws vs ->
  count_after i ws = count_after i vs.
Proof.
  intros H. revert i. induction H as [|w v ws vs Hw _ IH]; intros i; simpl.
  - done.
  - by rewrite Hw, IH.
Qed.

Lemma count_after_sum i ws :
  count_after i ws = i + foldr (fun w acc => len w + 1 + acc) 0 ws.
Proof.
  revert i. induction ws as [|w ws IH]; intros i; simpl; [lia|].
  rewrite IH. lia.
Qed.

Lemma words_loop_ok words wcodes :
  Forall2 (Forall2 encodes) words wcodes ->
  forall i s,
    words_loop words i s
    = (Return (snd (word_layout i wcodes)),
       sent (fst (word_layout i wcodes)) s).
Proof.
  induction 1 as [|word codes words wcodes Hw _ IH]; intros i s.
  - simpl. by rewrite sent_nil.
  - cbn [words_loop word_layout]. cbv zeta.
    rewrite <- (encodes_len _ _ Hw).
    specialize (IH (i + len word + 1)).
    destruct (word_layout (i + len word + 1) wcodes) as [bs i'] eqn:Hrest.
    cbn [fst snd] in *.
    (* the separator *)
    assert (when (negb (i =? 16) && negb (i =? 0)) (write [0x20]) s
            = (Return tt,
               sent (if decide (i <> 16 /\ i <> 0) then [0x20] else []) s))
      as Hsep.
    { destruct (decide (i <> 16 /\ i <> 0)) as [Hi|Hi].
      - replace (negb (i =? 16) && negb (i =? 0)) with true by lia.
        simpl. apply (write_ok [0x20] [0x20]). by repeat constructor.
      - replace (negb (i =? 16) && negb (i =? 0)) with false by lia.
        simpl. by rewrite sent_nil. }
    rewrite (bind_return _ _ _ _ _ Hsep).
    set (s1 := sent (if decide (i <> 16 /\ i <> 0) then [0x20] else []) s).
    (* the jump to line 2 *)
    assert (when (i + len word >? 16) (set_cursor_pos 2 1) s1
            = (Return tt,
               sent (if decide (i + len word > 16)
                     then line2_jump_bytes else []) s1))
      as Hjump.
    { destruct (decide (i + len word > 16)) as [Hi|Hi].
      - replace (i + len word >? 16) with true by lia.
        simpl. by rewrite set_cursor_pos_ok by lia.
      - replace (i + len word >? 16) with false by lia.
        simpl. by rewrite sent_nil. }
    rewrite (bind_return _ _ _ _ _ Hjump).
    rewrite (bind_return _ _ _ _ _ (write_ok _ _ _ Hw)).
    rewrite IH. subst s1. by rewrite <- !sent_app, <- ?app_assoc.
Qed.

Lemma disp_msg_words_ok msg wcodes s :
  Forall2 (Forall2 encodes) (split msg) wcodes ->
  disp_msg msg true s
  = (Return (snd (word_layout 0 wcodes) <=? 33),
     sent (screen_reset_bytes ++ fst (word_layout 0 wcodes)) s).
Proof.
  intros Hw. unfold disp_msg, clear_screen, home_cursor.
  rewrite (bind_return _ _ _ _ _ (send_cmd_sent _ _ _)).
  rewrite (bind_return _ _ _ _ _ (send_cmd_sent _ _ _)).
  rewrite (bind_return _ _ _ _ _ (words_loop_ok _ _ Hw 0 _)).
  unfold ret. by rewrite <- !sent_app.
Qed.

Lemma disp_msg_chars_ok msg codes s :
  Forall2 encodes msg codes ->
  disp_msg msg false s
  = (Return (len msg <=? 32),
     sent (screen_reset_bytes ++ char_layout codes) s).
Proof.
  intros Hm. unfold disp_msg, clear_screen, home_cursor.
  rewrite (bind_return _ _ _ _ _ (send_cmd_sent _ _ _)).
  rewrite (bind_return _ _ _ _ _ (send_cmd_sent _ _ _)).
  rewrite (bind_return _ _ _ _ _ (chars_loop_ok _ _ _ Hm)).
  unfold ret. by rewrite <- !sent_app.
Qed.

End Words.

(** ** Whitespace splitting *)

Section Split.

Lemma split_from_words cur s :
  Forall nonspace cur -> Forall is_word (split_from cur s).
Proof.
  revert cur. induction s as [|c s IH]; intros cur Hcur; simpl.
  - destruct cur as [|c0 cur]; [constructor|].
    constructor; [|constructor]. split.
    + intros Hn. apply (f_equal length) in Hn.
      rewrite length_rev in Hn. done.
    + by apply Forall_rev.
  - destruct (isspace c) eqn:E.
    + destruct cur as [|c0 cur]; [by apply IH|].
      constructor; [|by apply IH]. split.
      * intros Hn. apply (f_equal length) in Hn.
        rewrite length_rev in Hn. done.
      * by apply Forall_rev.
    + apply IH. by constructor.
Qed.

Lemma split_from_join cur s :
  mjoin (split_from cur s) = rev cur ++ filter nonspace s.
Proof.
  revert cur. induction s as [|c s IH]; intros cur; simpl.
  - destruct cur; simpl; [done|]. by rewrite !app_nil_r.
  - destruct (isspace c) eqn:E.
    + rewrite filter_cons_False by (unfold nonspace; congruence).
      destruct cur as [|c0 cur]; simpl.
      * by rewrite IH.
      * by rewrite IH.
    + rewrite filter_cons_True by done.
      rewrite IH. simpl. by rewrite <- app_assoc.
Qed.

Lemma split_words msg : Forall is_word (split msg).
Proof. apply split_from_words. constructor. Qed.

Lemma split_join msg : mjoin (split msg) = filter nonspace msg.
Proof. apply split_from_join. Qed.

Lemma encoded_words_join (words wcodes : list (list Z)) :
  Forall2 (Forall2 encodes) words wcodes ->
  Forall2 encodes (mjoin words) (mjoin wcodes).
Proof.
  induction 1 as [|w v ws vs Hw _ IH]; simpl; [constructor|].
  by apply Forall2_app.
Qed.

End Split.

(** ** Properties of the encoder *)

Section EncoderProperties.

(** C1 (as stated, refuted).  The claim sends the run alpha, a-umlaut,
    n-tilde, o-umlaut, beta, open E, mu, sigma, rho onto 0xE0-0xE6.  The
    encoder maps n-tilde to 0xEE, which lies outside that range and is
    not among the bytes the published character table lists. *)
Lemma special_table_n_tilde_not_published :
  _get_char_code n_tilde = Return 0xEE
  /\ ~ (0xE0 <= 0xEE <= 0xE6)
  /\ 0xEE ∉ published_bytes.
Proof.
  split; [reflexivity|]. split; [lia|].
  apply (bool_decide_unpack _). by vm_compute.
Qed.

(** C1 (amended).  For every character of the special-symbol table the
    encoder returns the byte the source table gives it: yen 0x5C, right
    arrow 0x7E, left arrow 0x7F, degree 0xDF, alpha 0xE0, a-umlaut 0xE1,
    n-tilde 0xEE, o-umlaut 0xEF, beta 0xE2, open E 0xE3, mu 0xE4, sigma
    0xE5, rho 0xE6, root 0xE8, cent 0xEC, theta 0xF2, infinity 0xF3,
    Omega 0xF4, Sigma 0xF6, pi 0xF7, division 0xFD, black square 0xFF. *)
Theorem special_table_bytes :
  _get_char_code 0xA5 = Return 0x5C        (* yen *)
  /\ _get_char_code 0x2192 = Return 0x7E   (* right arrow *)
  /\ _get_char_code 0x2190 = Return 0x7F   (* left arrow *)
  /\ _get_char_code 0xB0 = Return 0xDF     (* degree *)
  /\ _get_char_code 0x3B1 = Return 0xE0    (* alpha *)
  /\ _get_char_code 0xE4 = Return 0xE1     (* a-umlaut *)
  /\ _get_char_code 0xF1 = Return 0xEE     (* n-tilde *)
  /\ _get_char_code 0xF6 = Return 0xEF     (* o-umlaut *)
  /\ _get_char_code 0x3B2 = Return 0xE2    (* beta *)
  /\ _get_char_code 0x190 = Return 0xE3    (* open E *)
  /\ _get_char_code 0x3BC = Return 0xE4    (* mu *)
  /\ _get_char_code 0x3C3 = Return 0xE5    (* sigma *)
  /\ _get_char_code 0x3C1 = Return 0xE6    (* rho *)
  /\ _get_char_code 0x221A = Return 0xE8   (* square root *)
  /\ _get_char_code 0xA2 = Return 0xEC     (* cent *)
  /\ _get_char_code 0x3B8 = Return 0xF2    (* theta *)
  /\ _get_char_code 0x221E = Return 0xF3   (* infinity *)
  /\ _get_char_code 0x3A9 = Return 0xF4    (* Omega *)
  /\ _get_char_code 0x3A3 = Return 0xF6    (* Sigma *)
  /\ _get_char_code 0x3C0 = Return 0xF7    (* pi *)
  /\ _get_char_code 0xF7 = Return 0xFD     (* division *)
  /\ _get_char_code 0x25A0 = Return 0xFF   (* black square *)
  /\ symbol_keys
     = [0xA5; 0x2192; 0x2190; 0xB0; 0x3B1; 0xE4; 0xF1; 0xF6; 0x3B2; 0x190;
        0x3BC; 0x3C3; 0x3C1; 0x221A; 0xA2; 0x3B8; 0x221E; 0x3A9; 0x3A3;
        0x3C0; 0xF7; 0x25A0].
Proof. repeat split; reflexivity. Qed.

(** C8.  The encoder returns a byte exactly on the union of the eight
    slot-select code points, the keys of the special-symbol table and
    the code points 32..125 other than 92; its result is unique; on
    32..125 without 92 it returns the code point itself; everywhere
    else it raises the unsupported-character error. *)
Theorem get_char_code_domain :
  (forall c, (exists b, _get_char_code c = Return b) <-> in_legal_set c)
  /\ (forall c b1 b2, encodes c b1 -> encodes c b2 -> b1 = b2)
  /\ (forall c, 32 <= c <= 125 -> c <> 92 -> _get_char_code c = Return c)
  /\ (forall c, ~ in_legal_set c ->
                _get_char_code c = Raise (UnsupportedCharacter c)).
Proof.
  split; [|split; [|split]].
  - intros c. split.
    + intros [b Hb]. destruct (decide (in_legal_set c)) as [|Hn]; [done|].
      rewrite (get_char_code_outside c Hn) in Hb. done.
    + apply get_char_code_legal.
  - unfold encodes. intros c b1 b2 H1 H2. congruence.
  - apply get_char_code_ascii.
  - apply get_char_code_outside.
Qed.

Lemma get_char_code_domain_witness :
  _get_char_code 65 = Return 65
  /\ _get_char_code 92 = Raise (UnsupportedCharacter 92)
  /\ (exists b, _get_char_code 3 = Return b).
Proof.
  destruct get_char_code_domain as (Hdom & _ & Hascii & Hout).
  split; [apply (Hascii 65); lia|].
  split.
  - apply (Hout 92). intros [H | [H | H]]; [lia | | lia].
    apply symbol_keys_range in H. lia.
  - apply (Hdom 3). left. lia.
Defined.

End EncoderProperties.

(** ** Properties of the protocol controller *)

Section ProtocolProperties.

(** C9.  A framed command goes out as 0xFE, the opcode and the
    parameters in order, one [write_byte] per byte, all to the address
    of the object; the four shift operations with count [n] send [n]
    copies of their two-byte single-step command, and nothing at all
    when [n <= 0]. *)
Theorem framed_command_wire_format :
  (forall cmd params s,
      _send_cmd cmd params s = (Return tt, sent (0xFE :: cmd :: params) s)
      /\ bus (sent (0xFE :: cmd :: params) s)
         = bus s ++ (i2c_addr s, 0xFE) :: (i2c_addr s, cmd)
                    :: map (pair (i2c_addr s)) params
      /\ length (bus (sent (0xFE :: cmd :: params) s))
         = (length (bus s) + 2 + length params)%nat)
  /\ (forall n s,
         shift_cursor_left n s
         = (Return tt, sent (mjoin (replicate (Z.to_nat n) [0xFE; 0x49])) s)
         /\ shift_cursor_right n s
            = (Return tt, sent (mjoin (replicate (Z.to_nat n) [0xFE; 0x4A])) s)
         /\ shift_display_left n s
            = (Return tt, sent (mjoin (replicate (Z.to_nat n) [0xFE; 0x55])) s)
         /\ shift_display_right n s
            = (Return tt, sent (mjoin (replicate (Z.to_nat n) [0xFE; 0x56])) s))
  /\ (forall n s,
         n <= 0 ->
         shift_cursor_left n s = (Return tt, s)
         /\ shift_cursor_right n s = (Return tt, s)
         /\ shift_display_left n s = (Return tt, s)
         /\ shift_display_right n s = (Return tt, s)).
Proof.
  split; [|split].
  - intros cmd params s. split; [apply send_cmd_sent|].
    split; [reflexivity|].
    unfold sent; simpl. rewrite length_app. simpl. rewrite length_map. lia.
  - intros n s.
    unfold shift_cursor_left, shift_cursor_right, shift_display_left,
      shift_display_right.
    rewrite !repeat_cmd_sent, range_length. done.
  - intros n s Hn.
    unfold shift_cursor_left, shift_cursor_right, shift_display_left,
      shift_display_right, range.
    replace (Z.to_nat n) with 0%nat by lia. done.
Qed.

Lemma framed_command_wire_format_witness :
  shift_cursor_left (-2) lcd0 = (Return tt, lcd0)
  /\ shift_display_right 0 lcd0 = (Return tt, lcd0)
  /\ shift_cursor_right 3 lcd0
     = (Return tt, sent [0xFE; 0x4A; 0xFE; 0x4A; 0xFE; 0x4A] lcd0).
Proof.
  destruct framed_command_wire_format as (_ & Hn & Hz).
  split; [apply (Hz (-2) lcd0); lia|].
  split; [apply (Hz 0 lcd0); lia|].
  apply (Hn 3 lcd0).
Defined.

(** C5.  [set_cursor_pos] raises the bounds error without writing
    unless the line is 1 or 2 and the column lies in 1..16; in range
    it sends 0xFE, 0x45, (line-1)*0x40 + (column-1); that address is
    injective on the in-range pairs, and line 2 lies exactly 0x40
    above line 1 in every column. *)
Theorem set_cursor_pos_address :
  (forall line column s,
      ~ (1 <= line <= 2 /\ 1 <= column <= 16) ->
      set_cursor_pos line column s = (Raise CursorOffScreen, s))
  /\ (forall line column s,
         1 <= line <= 2 -> 1 <= column <= 16 ->
         set_cursor_pos line column s
         = (Return tt,
            sent [0xFE; 0x45; (line - 1) * 0x40 + (column - 1)] s))
  /\ (forall l1 c1 l2 c2,
         1 <= l1 <= 2 -> 1 <= c1 <= 16 -> 1 <= l2 <= 2 -> 1 <= c2 <= 16 ->
         pos l1 c1 = pos l2 c2 -> l1 = l2 /\ c1 = c2)
  /\ (forall l1 c1 l2 c2 s,
         1 <= l1 <= 2 -> 1 <= c1 <= 16 -> 1 <= l2 <= 2 -> 1 <= c2 <= 16 ->
         set_cursor_pos l1 c1 s = set_cursor_pos l2 c2 s ->
         l1 = l2 /\ c1 = c2)
  /\ (forall c, 1 <= c <= 16 -> pos 2 c - pos 1 c = 0x40).
Proof.
  split; [|split; [|split; [|split]]].
  - apply set_cursor_pos_off.
  - intros. by apply set_cursor_pos_ok.
  - unfold pos. lia.
  - intros l1 c1 l2 c2 s Hl1 Hc1 Hl2 Hc2.
    rewrite !set_cursor_pos_ok by done.
    intros H. apply (f_equal snd) in H. cbn [snd] in H.
    apply sent_inj in H. injection H as H. unfold pos in H. lia.
  - unfold pos. lia.
Qed.

Lemma set_cursor_pos_address_witness :
  set_cursor_pos 3 1 lcd0 = (Raise CursorOffScreen, lcd0)
  /\ set_cursor_pos 1 17 lcd0 = (Raise CursorOffScreen, lcd0)
  /\ set_cursor_pos 2 5 lcd0 = (Return tt, sent [0xFE; 0x45; 0x44] lcd0)
  /\ pos 2 7 - pos 1 7 = 0x40.
Proof.
  destruct set_cursor_pos_address as (Hoff & Hok & _ & _ & Hdiff).
  split; [apply (Hoff 3 1 lcd0); lia|].
  split; [apply (Hoff 1 17 lcd0); lia|].
  split; [apply (Hok 2 5 lcd0); lia|].
  apply (Hdiff 7); lia.
Defined.

(** C2 (the code at the failing input).  A glyph whose first row is
    0x1F, the full five-bit row, is refused for slot 0 with the bitmap
    error and nothing is written, while the same glyph with 0x1E in
    that row is accepted and framed as 0xFE, 0x54, slot, rows. *)
Theorem load_custom_character_refuses_row_31 :
  forall s,
    load_custom_character 0 [0x1F; 0; 0; 0; 0; 0; 0; 0] s
    = (Raise BadBitmap, s)
    /\ load_custom_character 0 [0x1E; 0; 0; 0; 0; 0; 0; 0] s
       = (Return tt, sent [0xFE; 0x54; 0; 0x1E; 0; 0; 0; 0; 0; 0; 0] s).
Proof.
  intros s. split; [reflexivity|].
  unfold load_custom_character. simpl. apply send_cmd_sent.
Qed.

Lemma bitmap_rows_check bitmap :
  forallb (fun i => (i <? 0x1F) && (i >=? 0)) bitmap = true
  <-> Forall (fun i => 0 <= i < 0x1F) bitmap.
Proof.
  induction bitmap as [|r bitmap IH]; simpl.
  - split; [constructor|done].
  - rewrite andb_true_iff, Forall_cons, IH.
    assert ((r <? 31) && (r >=? 0) = true <-> 0 <= r < 31) by lia.
    tauto.
Qed.

(** What [load_custom_character] accepts: the slot in 0..7, exactly
    eight rows, every row in 0..30. *)
Lemma load_custom_character_accepts slot bitmap s :
  load_custom_character slot bitmap s
  = if decide (0 <= slot <= 7) then
      if decide (length bitmap = 8%nat /\ Forall (fun i => 0 <= i < 0x1F) bitmap)
      then (Return tt, sent (0xFE :: 0x54 :: slot :: bitmap) s)
      else (Raise BadBitmap, s)
    else (Raise SlotOutOfRange, s).
Proof.
  unfold load_custom_character.
  destruct (decide (0 <= slot <= 7)) as [Hs|Hs].
  2:{ replace ((slot <? 0) || (slot >? 7)) with true by lia. done. }
  replace ((slot <? 0) || (slot >? 7)) with false by lia.
  pose proof (bitmap_rows_check bitmap) as Hrows.
  destruct (forallb (fun i => (i <? 0x1F) && (i >=? 0)) bitmap).
  - destruct (decide (length bitmap = 8%nat /\ _)) as [[Hl _]|Hn].
    + replace (len bitmap =? 8) with true by (unfold len; lia).
      simpl. apply send_cmd_sent.
    + replace (len bitmap =? 8) with false; [done|].
      symmetry. apply Z.eqb_neq. unfold len. intros Hl. apply Hn.
      split; [lia|]. by apply Hrows.
  - rewrite orb_true_r.
    destruct (decide (length bitmap = 8%nat /\ _)) as [[_ Hr]|Hn]; [|done].
    apply Hrows in Hr. done.
Qed.

End ProtocolProperties.

(** ** Validation and the bus *)

Section ValidationProperties.

(** C3 (as stated, refuted).  [write] on "a\" has already written the
    code of 'a' when it raises for the backslash, and a centred
    [write_line] of twenty characters has already written the
    twenty-two bytes of [clear_line] when the start column is
    refused. *)
Lemma validation_after_writes :
  write [97; 92] lcd0 = (Raise (UnsupportedCharacter 92), sent [97] lcd0)
  /\ length (bus (sent [97] lcd0)) = 1%nat
  /\ write_line (A_times 20) 2 true lcd0
     = (Raise CursorOffScreen, sent (clear_line_bytes 2) lcd0)
  /\ length (bus (sent (clear_line_bytes 2) lcd0)) = 22%nat.
Proof. repeat split; reflexivity. Qed.

(** C3 (amended).  The operations that validate a parameter and then
    send one command or byte ([write_char_from_code],
    [set_cursor_pos], [set_contrast], [set_backlight_brightness],
    [load_custom_character]) and [clear_line] leave the bus untouched
    whenever they raise.  [write] raises at the first unsupported
    character after writing the codes of the characters before it, and
    a centred [write_line] on line 1 or 2 whose text is longer than 16
    raises the bounds error after the writes of [clear_line]. *)
Theorem validation_failure_writes :
  (forall code s e s', write_char_from_code code s = (Raise e, s') -> s' = s)
  /\ (forall line column s e s',
         set_cursor_pos line column s = (Raise e, s') -> s' = s)
  /\ (forall contrast s e s', set_contrast contrast s = (Raise e, s') -> s' = s)
  /\ (forall brightness s e s',
         set_backlight_brightness brightness s = (Raise e, s') -> s' = s)
  /\ (forall slot bitmap s e s',
         load_custom_character slot bitmap s = (Raise e, s') -> s' = s)
  /\ (forall line s e s', clear_line line s = (Raise e, s') -> s' = s)
  /\ (forall pre codes c post s,
         Forall2 encodes pre codes -> ~ in_legal_set c ->
         write (pre ++ c :: post) s
         = (Raise (UnsupportedCharacter c), sent codes s))
  /\ (forall msg line s,
         1 <= line <= 2 -> len msg > 16 ->
         write_line msg line true s
         = (Raise CursorOffScreen, sent (clear_line_bytes line) s)).
Proof.
  repeat apply conj.
  - intros code s e s'. unfold write_char_from_code.
    destruct ((code <? 0) || (code >? 255)); [by intros [= _ <-]|done].
  - intros line column s e s'.
    destruct (decide (1 <= line <= 2 /\ 1 <= column <= 16)) as [[Hl Hc]|Hn].
    + by rewrite set_cursor_pos_ok.
    + rewrite set_cursor_pos_off by done. by intros [= _ <-].
  - intros contrast s e s'. unfold set_contrast.
    destruct ((contrast <? 1) || (contrast >? 50)); [by intros [= _ <-]|].
    by rewrite send_cmd_sent.
  - intros brightness s e s'. unfold set_backlight_brightness.
    destruct ((brightness <? 1) || (brightness >? 8)); [by intros [= _ <-]|].
    by rewrite send_cmd_sent.
  - intros slot bitmap s e s'. rewrite load_custom_character_accepts.
    repeat case_decide; by intros [= _ <-].
  - intros line s e s'.
    destruct (decide (1 <= line <= 2)) as [Hl|Hn].
    + by rewrite clear_line_ok.
    + rewrite clear_line_off by done. by intros [= _ <-].
  - intros pre codes c post s Hpre Hc.
    apply write_raise; [done|]. by apply get_char_code_outside.
  - apply write_line_centered_oversize.
Qed.

Lemma validation_failure_writes_witness :
  snd (set_cursor_pos 0 5 lcd0) = lcd0
  /\ snd (load_custom_character 8 [0; 0; 0; 0; 0; 0; 0; 0] lcd0) = lcd0
  /\ write ([72; 105] ++ 126 :: [33]) lcd0
     = (Raise (UnsupportedCharacter 126), sent [72; 105] lcd0)
  /\ write_line (A_times 17) 1 true lcd0
     = (Raise CursorOffScreen, sent (clear_line_bytes 1) lcd0).
Proof.
  destruct validation_failure_writes
    as (_ & Hcur & _ & _ & Hload & _ & Hwrite & Hline).
  split; [apply (Hcur 0 5 lcd0 CursorOffScreen); reflexivity|].
  split;
    [apply (Hload 8 [0; 0; 0; 0; 0; 0; 0; 0] lcd0 SlotOutOfRange);
     reflexivity|].
  split.
  - apply (Hwrite [72; 105] [72; 105] 126 [33] lcd0).
    + repeat constructor.
    + intros [H | [H | H]]; [lia | | lia].
      apply symbol_keys_range in H. lia.
  - apply (Hline (A_times 17) 1 lcd0); [lia | reflexivity].
Defined.

End ValidationProperties.

(** ** Properties of the text layout *)

Section LayoutProperties.

(** C6 (as stated, refuted).  A centred [write_line] of seventeen
    supported characters computes start column 0, raises the bounds
    error after clearing the line, writes none of the text and
    returns nothing. *)
Lemma write_line_centered_17_raises :
  1 + (16 - len (A_times 17)) / 2 = 0
  /\ Forall2 encodes (A_times 17) (A_times 17)
  /\ write_line (A_times 17) 1 true lcd0
     = (Raise CursorOffScreen, sent (clear_line_bytes 1) lcd0).
Proof. split; [reflexivity|]. split; [|reflexivity]. repeat constructor. Qed.

(** C6 (amended).  For a text of supported characters and a line in
    {1,2}: when the text is not centred, or has at most 16 characters,
    [write_line] clears the line, positions the cursor at column 1
    (not centred) or 1 + floor((16 - len) / 2) (centred), writes the
    whole text and returns whether len <= 16; when it is centred and
    longer than 16 it raises the bounds error after clearing the line.
    "HELLO" centred on line 1 starts at column 6 and returns true. *)
Theorem write_line_layout :
  (forall msg codes line centered s,
      1 <= line <= 2 -> Forall2 encodes msg codes ->
      centered = false \/ len msg <= 16 ->
      write_line msg line centered s
      = (Return (len msg <=? 16),
         sent (clear_line_bytes line
               ++ [0xFE; 0x45;
                   pos line (if centered then 1 + (16 - len msg) / 2 else 1)]
               ++ codes) s))
  /\ (forall msg line s,
         1 <= line <= 2 -> len msg > 16 ->
         write_line msg line true s
         = (Raise CursorOffScreen, sent (clear_line_bytes line) s))
  /\ 1 + (16 - len HELLO) / 2 = 6
  /\ write_line HELLO 1 true lcd0
     = (Return true,
        sent (clear_line_bytes 1 ++ [0xFE; 0x45; pos 1 6] ++ HELLO) lcd0).
Proof.
  split; [|split; [|split]].
  - intros. by apply write_line_ok.
  - apply write_line_centered_oversize.
  - reflexivity.
  - reflexivity.
Qed.

Lemma write_line_layout_witness :
  write_line [79; 75] 2 true lcd0
  = (Return true,
     sent (clear_line_bytes 2 ++ [0xFE; 0x45; 0x47] ++ [79; 75]) lcd0)
  /\ write_line (A_times 18) 1 false lcd0
     = (Return false,
        sent (clear_line_bytes 1 ++ [0xFE; 0x45; 0x00] ++ A_times 18) lcd0)
  /\ write_line (A_times 18) 2 true lcd0
     = (Raise CursorOffScreen, sent (clear_line_bytes 2) lcd0).
Proof.
  destruct write_line_layout as (Hok & Hover & _ & _).
  split; [|split].
  - apply (Hok [79; 75] [79; 75] 2 true lcd0); [lia | | right; by vm_compute].
    repeat constructor.
  - apply (Hok (A_times 18) (A_times 18) 1 false lcd0); [lia | | by left].
    repeat constructor.
  - apply (Hover (A_times 18) 2 lcd0); [lia | reflexivity].
Defined.

End LayoutProperties.

(** ** Properties of the message layout *)

Section MessageProperties.

Lemma table_bytes_not_escape :
  Forall (fun kv => kv.2 <> 0xFE) (custom_char_items ++ symbol_items).
Proof. apply (bool_decide_unpack _). by vm_compute. Qed.

(** No character is encoded as the command escape byte. *)
Lemma encodes_not_escape c b : encodes c b -> b <> 0xFE.
Proof.
  intros [Hs | (-> & Hr & _)]%get_char_code_return; [|lia].
  apply special_chars_Some in Hs.
  pose proof table_bytes_not_escape as Hall.
  rewrite Forall_forall in Hall. apply (Hall _ Hs).
Qed.

Lemma codes_not_escape msg codes :
  Forall2 encodes msg codes -> Forall (fun b => b <> 0xFE) codes.
Proof.
  induction 1 as [|c b msg codes Hc _ IH]; constructor; [|done].
  by apply (encodes_not_escape c).
Qed.

(** C4 (as stated, refuted).  On "ab c~" the words are "ab" and "c~"
    and the running count ends at 6, yet [disp_msg] returns no fits
    value: it raises at the unsupported "~" after writing "ab", the
    blank and "c". *)
Lemma disp_msg_words_unsupported_raises :
  split ab_c_tilde = [[97; 98]; [99; 126]]
  /\ count_after 0 (split ab_c_tilde) = 6
  /\ disp_msg ab_c_tilde true lcd0
     = (Raise (UnsupportedCharacter 126),
        sent (screen_reset_bytes ++ [97; 98; 32; 99]) lcd0).
Proof. repeat split; reflexivity. Qed.

(** C4 (amended).  For a message whose words consist of supported
    characters, in preserve-words mode [disp_msg] clears the screen, homes
    the cursor and lays out the words of [split msg] with a running
    count starting at 0: a blank before a word unless the count is 16
    or 0, the jump to line 2 column 1 before a word that would pass
    16, then the whole word, the count growing by the word length plus
    one; it returns whether the final count is at most 33.  On "ab cd"
    the count ends at 6 and the result is true. *)
Theorem disp_msg_preserve_words_layout :
  (forall msg wcodes s,
      Forall2 (Forall2 encodes) (split msg) wcodes ->
      disp_msg msg true s
      = (Return (count_after 0 (split msg) <=? 33),
         sent (screen_reset_bytes ++ fst (word_layout 0 wcodes)) s)
      /\ snd (word_layout 0 wcodes) = count_after 0 (split msg)
      /\ count_after 0 (split msg)
         = foldr (fun word acc => len word + 1 + acc) 0 (split msg))
  /\ screen_reset_bytes ++ line2_jump_bytes
     = [0xFE; 0x51; 0xFE; 0x46; 0xFE; 0x45; pos 2 1]
  /\ split ab_cd = [[97; 98]; [99; 100]]
  /\ count_after 0 (split ab_cd) = 6
  /\ disp_msg ab_cd true lcd0
     = (Return true, sent (screen_reset_bytes ++ ab_cd) lcd0).
Proof.
  split; [|repeat split; reflexivity].
  intros msg wcodes s Hw.
  assert (count_after 0 wcodes = count_after 0 (split msg)) as Hcount.
  { symmetry. apply count_after_lengths.
    eapply Forall2_impl; [exact Hw|]. apply encodes_len. }
  split; [|split].
  - rewrite (disp_msg_words_ok _ _ _ Hw).
    by rewrite word_layout_count, Hcount.
  - by rewrite word_layout_count.
  - rewrite count_after_sum. lia.
Qed.

Lemma disp_msg_preserve_words_layout_witness :
  disp_msg ab_cd true lcd0
  = (Return (count_after 0 (split ab_cd) <=? 33),
     sent (screen_reset_bytes
           ++ fst (word_layout 0 [[97; 98]; [99; 100]])) lcd0).
Proof.
  destruct disp_msg_preserve_words_layout as (Hgen & _).
  apply (Hgen ab_cd [[97; 98]; [99; 100]] lcd0).
  repeat constructor.
Defined.

(** C7 (as stated, refuted).  A lone backslash has length 1, at most
    32, yet [disp_msg] in character mode returns nothing: it raises the
    unsupported-character error after clearing the screen and homing
    the cursor. *)
Lemma disp_msg_chars_backslash_raises :
  len backslash <= 32
  /\ disp_msg backslash false lcd0
     = (Raise (UnsupportedCharacter 92), sent screen_reset_bytes lcd0).
Proof. split; [by vm_compute | reflexivity]. Qed.

(** C7 (amended).  For a message of supported characters, in character
    mode [disp_msg] clears the screen, homes the
    cursor and writes the characters in order, with the jump to line 2
    column 1 once, right before the character at index 16, when there
    are more than 16; no other escape byte follows the two opening
    commands; it returns whether the text has at most 32 characters.
    Forty characters give sixteen codes, the jump, twenty-four codes
    and false. *)
Theorem disp_msg_character_layout :
  (forall msg codes s,
      Forall2 encodes msg codes ->
      disp_msg msg false s
      = (Return (len msg <=? 32),
         sent (screen_reset_bytes
               ++ take 16 codes
               ++ (if decide (len msg > 16)
                   then [0xFE; 0x45; pos 2 1] ++ drop 16 codes
                   else [])) s)
      /\ Forall (fun b => b <> 0xFE) codes)
  /\ disp_msg (A_times 40) false lcd0
     = (Return false,
        sent (screen_reset_bytes
              ++ A_times 16 ++ [0xFE; 0x45; 0x40] ++ A_times 24) lcd0).
Proof.
  split; [|reflexivity].
  intros msg codes s Hm. split; [|by apply (codes_not_escape msg)].
  rewrite (disp_msg_chars_ok _ _ _ Hm). unfold char_layout.
  by rewrite (encodes_len _ _ Hm).
Qed.

Lemma disp_msg_character_layout_witness :
  disp_msg (A_times 17) false lcd0
  = (Return true,
     sent (screen_reset_bytes ++ A_times 16 ++ [0xFE; 0x45; 0x40; 65]) lcd0).
Proof.
  destruct disp_msg_character_layout as (Hgen & _).
  apply (Hgen (A_times 17) (A_times 17) lcd0).
  repeat constructor.
Defined.

End MessageProperties.

(** ** Further properties: single commands *)

Section CommandBounds.

(** X1.  [write_char_from_code] accepts exactly the byte range 0..0xFF
    and then writes that one value unframed and unencoded; any other
    code raises without a write. *)
Theorem write_char_from_code_bounds :
  (forall code s,
      0 <= code <= 0xFF ->
      write_char_from_code code s
      = (Return tt, Lcd (i2c_addr s) (bus s ++ [(i2c_addr s, code)])))
  /\ (forall code s,
         ~ (0 <= code <= 0xFF) ->
         write_char_from_code code s = (Raise CodeOutOfByteRange, s)).
Proof.
  split; intros code s H; unfold write_char_from_code.
  - replace ((code <? 0) || (code >? 255)) with false by lia. done.
  - replace ((code <? 0) || (code >? 255)) with true by lia. done.
Qed.

Lemma write_char_from_code_bounds_witness :
  write_char_from_code 0xFE lcd0 = (Return tt, Lcd 0x28 [(0x28, 0xFE)])
  /\ write_char_from_code 256 lcd0 = (Raise CodeOutOfByteRange, lcd0)
  /\ write_char_from_code (-1) lcd0 = (Raise CodeOutOfByteRange, lcd0).
Proof.
  destruct write_char_from_code_bounds as (Hok & Hbad).
  split; [apply (Hok 0xFE lcd0); lia|].
  split; [apply (Hbad 256 lcd0); lia | apply (Hbad (-1) lcd0); lia].
Defined.

(** X2.  [set_contrast] sends 0xFE, 0x52, contrast exactly when the
    contrast lies in 1..50 and otherwise raises without a write. *)
Theorem set_contrast_bounds :
  (forall contrast s,
      1 <= contrast <= 50 ->
      set_contrast contrast s = (Return tt, sent [0xFE; 0x52; contrast] s))
  /\ (forall contrast s,
         ~ (1 <= contrast <= 50) ->
         set_contrast contrast s = (Raise ContrastOutOfRange, s)).
Proof.
  split; intros contrast s H; unfold set_contrast.
  - replace ((contrast <? 1) || (contrast >? 50)) with false by lia.
    apply send_cmd_sent.
  - replace ((contrast <? 1) || (contrast >? 50)) with true by lia. done.
Qed.

Lemma set_contrast_bounds_witness :
  set_contrast 50 lcd0 = (Return tt, sent [0xFE; 0x52; 50] lcd0)
  /\ set_contrast 0 lcd0 = (Raise ContrastOutOfRange, lcd0)
  /\ set_contrast 51 lcd0 = (Raise ContrastOutOfRange, lcd0).
Proof.
  destruct set_contrast_bounds as (Hok & Hbad).
  split; [apply (Hok 50 lcd0); lia|].
  split; [apply (Hbad 0 lcd0); lia | apply (Hbad 51 lcd0); lia].
Defined.

(** X3.  [set_backlight_brightness] sends 0xFE, 0x53, brightness exactly
    when the brightness lies in 1..8 and otherwise raises without a
    write. *)
Theorem set_backlight_brightness_bounds :
  (forall brightness s,
      1 <= brightness <= 8 ->
      set_backlight_brightness brightness s
      = (Return tt, sent [0xFE; 0x53; brightness] s))
  /\ (forall brightness s,
         ~ (1 <= brightness <= 8) ->
         set_backlight_brightness brightness s
         = (Raise BrightnessOutOfRange, s)).
Proof.
  split; intros brightness s H; unfold set_backlight_brightness.
  - replace ((brightness <? 1) || (brightness >? 8)) with false by lia.
    apply send_cmd_sent.
  - replace ((brightness <? 1) || (brightness >? 8)) with true by lia. done.
Qed.

Lemma set_backlight_brightness_bounds_witness :
  set_backlight_brightness 1 lcd0 = (Return tt, sent [0xFE; 0x53; 1] lcd0)
  /\ set_backlight_brightness 9 lcd0 = (Raise BrightnessOutOfRange, lcd0)
  /\ set_backlight_brightness 0 lcd0 = (Raise BrightnessOutOfRange, lcd0).
Proof.
  destruct set_backlight_brightness_bounds as (Hok & Hbad).
  split; [apply (Hok 1 lcd0); lia|].
  split; [apply (Hbad 9 lcd0); lia | apply (Hbad 0 lcd0); lia].
Defined.

(** X4.  [clear_line] on line 1 or 2 sends twenty-two bytes: the cursor
    command for column 1 of the line, sixteen blanks, and the same
    cursor command again; on any other line it raises the bounds error
    before anything is written. *)
Theorem clear_line_bytes_sent :
  (forall line s,
      1 <= line <= 2 ->
      clear_line line s
      = (Return tt,
         sent ([0xFE; 0x45; (line - 1) * 0x40]
               ++ replicate 16 0x20
               ++ [0xFE; 0x45; (line - 1) * 0x40]) s)
      /\ length (bus (snd (clear_line line s))) = (length (bus s) + 22)%nat)
  /\ (forall line s,
         ~ (1 <= line <= 2) ->
         clear_line line s = (Raise CursorOffScreen, s)).
Proof.
  split.
  - intros line s Hl. rewrite (clear_line_ok line s Hl).
    unfold clear_line_bytes, pos. rewrite Z.add_0_r. split; [done|].
    cbn [snd]. unfold sent. cbn [bus]. rewrite length_app, length_map. done.
  - apply clear_line_off.
Qed.

Lemma clear_line_bytes_sent_witness :
  clear_line 2 lcd0
  = (Return tt,
     sent ([0xFE; 0x45; 0x40] ++ replicate 16 0x20 ++ [0xFE; 0x45; 0x40]) lcd0)
  /\ clear_line 0 lcd0 = (Raise CursorOffScreen, lcd0).
Proof.
  destruct clear_line_bytes_sent as (Hok & Hbad).
  split; [apply (Hok 2 lcd0); lia | apply (Hbad 0 lcd0); lia].
Defined.

(** X5.  [load_custom_character] accepts exactly a slot in 0..7 with
    eight rows, each in 0..30, and then sends 0xFE, 0x54, the slot and
    the rows; a bad slot is reported before a bad bitmap, and neither
    failure writes anything. *)
Theorem load_custom_character_bounds :
  (forall slot bitmap s,
      0 <= slot <= 7 -> length bitmap = 8%nat ->
      Forall (fun row => 0 <= row <= 30) bitmap ->
      load_custom_character slot bitmap s
      = (Return tt, sent (0xFE :: 0x54 :: slot :: bitmap) s))
  /\ (forall slot bitmap s,
         ~ (0 <= slot <= 7) ->
         load_custom_character slot bitmap s = (Raise SlotOutOfRange, s))
  /\ (forall slot bitmap s,
         0 <= slot <= 7 ->
         ~ (length bitmap = 8%nat /\ Forall (fun row => 0 <= row <= 30) bitmap) ->
         load_custom_character slot bitmap s = (Raise BadBitmap, s)).
Proof.
  assert (forall bitmap : list Z,
             Forall (fun row => 0 <= row <= 30) bitmap
             <-> Forall (fun i => 0 <= i < 31) bitmap) as Hrows.
  { intros bitmap. apply Forall_proper; [|done]. intros row. lia. }
  split; [|split]; intros slot bitmap s.
  - intros Hs Hl Hr. rewrite load_custom_character_accepts.
    rewrite decide_True by done.
    rewrite decide_True; [done|]. split; [done|]. by apply Hrows.
  - intros Hs. rewrite load_custom_character_accepts.
    by rewrite decide_False.
  - intros Hs Hn. rewrite load_custom_character_accepts.
    rewrite decide_True by done.
    rewrite decide_False; [done|]. intros [Hl Hr]. apply Hn.
    split; [done|]. by apply Hrows.
Qed.

Lemma load_custom_character_bounds_witness :
  load_custom_character 7 [4; 0; 4; 8; 16; 17; 14; 0] lcd0
  = (Return tt, sent [0xFE; 0x54; 7; 4; 0; 4; 8; 16; 17; 14; 0] lcd0)
  /\ load_custom_character 8 [32] lcd0 = (Raise SlotOutOfRange, lcd0)
  /\ load_custom_character 0 [0; 0; 0; 0; 0; 0; 0] lcd0
     = (Raise BadBitmap, lcd0).
Proof.
  destruct load_custom_character_bounds as (Hok & Hslot & Hmap).
  split; [|split].
  - apply (Hok 7 [4; 0; 4; 8; 16; 17; 14; 0] lcd0); [lia | reflexivity|].
    repeat constructor; lia.
  - apply (Hslot 8 [32] lcd0). lia.
  - apply (Hmap 0 [0; 0; 0; 0; 0; 0; 0] lcd0); [lia|].
    intros [Hl _]. discriminate Hl.
Defined.

End CommandBounds.

(** ** Further properties: how commands compose *)

Section CommandComposition.

Lemma for_each_bind {A} (xs ys : list A) body s :
  for_each (xs ++ ys) body s = (for_each xs body ;; for_each ys body) s.
Proof.
  revert s. induction xs as [|x xs IH]; intros s; simpl; [done|].
  unfold bind at 1 2 3. destruct (body x s) as [[[]|e] s1]; [|done].
  rewrite IH. done.
Qed.

(** X6.  [change_i2c_address] sends 0xFE, 0x62, new address to the
    address the object held before, never validates the new address,
    and every command issued afterwards goes to the new address; what
    was already on the bus is kept. *)
Theorem change_i2c_address_retargets :
  forall new_addr s,
    change_i2c_address new_addr s
    = (Return tt,
       Lcd new_addr
           (bus s ++ [(i2c_addr s, 0xFE); (i2c_addr s, 0x62);
                      (i2c_addr s, new_addr)]))
    /\ (forall cmd params,
           (change_i2c_address new_addr ;; _send_cmd cmd params) s
           = (Return tt,
              Lcd new_addr
                  (bus s ++ [(i2c_addr s, 0xFE); (i2c_addr s, 0x62);
                             (i2c_addr s, new_addr)]
                   ++ (new_addr, 0xFE) :: (new_addr, cmd)
                      :: map (pair new_addr) params))).
Proof.
  intros new_addr s.
  assert (change_i2c_address new_addr s
          = (Return tt,
             Lcd new_addr
                 (bus s ++ [(i2c_addr s, 0xFE); (i2c_addr s, 0x62);
                            (i2c_addr s, new_addr)]))) as Hchange.
  { unfold change_i2c_address.
    rewrite (bind_return _ _ _ _ _ (send_cmd_sent _ _ _)). done. }
  split; [done|]. intros cmd params.
  rewrite (bind_return _ _ _ _ _ Hchange), send_cmd_sent.
  unfold sent. cbn [i2c_addr bus map]. by rewrite <- app_assoc.
Qed.

(** X7.  For non-negative counts the shift operations add up: shifting
    by [m] and then by [n] sends exactly what shifting by [m + n]
    sends. *)
Theorem shift_counts_add :
  forall m n s,
    0 <= m -> 0 <= n ->
    (shift_cursor_left m ;; shift_cursor_left n) s
    = shift_cursor_left (m + n) s
    /\ (shift_cursor_right m ;; shift_cursor_right n) s
       = shift_cursor_right (m + n) s
    /\ (shift_display_left m ;; shift_display_left n) s
       = shift_display_left (m + n) s
    /\ (shift_display_right m ;; shift_display_right n) s
       = shift_display_right (m + n) s.
Proof.
  intros m n s Hm Hn.
  assert (forall cmd,
             (for_each (range m) (fun _ => _send_cmd cmd []) ;;
              for_each (range n) (fun _ => _send_cmd cmd [])) s
             = for_each (range (m + n)) (fun _ => _send_cmd cmd []) s) as H.
  { intros cmd.
    rewrite (bind_return _ _ _ _ _ (repeat_cmd_sent (range m) cmd s)).
    rewrite !repeat_cmd_sent, !range_length, <- sent_app.
    rewrite Z2Nat.inj_add by done.
    by rewrite replicate_add, join_app. }
  unfold shift_cursor_left, shift_cursor_right, shift_display_left,
    shift_display_right.
  repeat split; apply H.
Qed.

Lemma shift_counts_add_witness :
  (shift_cursor_left 2 ;; shift_cursor_left 3) lcd0 = shift_cursor_left 5 lcd0.
Proof.
  destruct (shift_counts_add 2 3 lcd0 ltac:(lia) ltac:(lia)) as (H & _).
  exact H.
Defined.

(** X8.  The commands without validation never raise and send the
    escape byte followed by their opcode (and their one parameter, for
    the baud rate): display on 0x41, off 0x42, home 0x46, underline
    cursor on 0x47 / off 0x48, blinking cursor on 0x4B / off 0x4C,
    backspace 0x4E, clear screen 0x51, baud rate 0x61, firmware version
    0x70, baud rate report 0x71, address report 0x72. *)
Theorem unvalidated_command_opcodes :
  forall s,
    display_on s = (Return tt, sent [0xFE; 0x41] s)
    /\ display_off s = (Return tt, sent [0xFE; 0x42] s)
    /\ home_cursor s = (Return tt, sent [0xFE; 0x46] s)
    /\ underline_cursor true s = (Return tt, sent [0xFE; 0x47] s)
    /\ underline_cursor false s = (Return tt, sent [0xFE; 0x48] s)
    /\ blinking_cursor true s = (Return tt, sent [0xFE; 0x4B] s)
    /\ blinking_cursor false s = (Return tt, sent [0xFE; 0x4C] s)
    /\ backspace s = (Return tt, sent [0xFE; 0x4E] s)
    /\ clear_screen s = (Return tt, sent [0xFE; 0x51] s)
    /\ (forall baud_rate,
           change_rs232_baud_rate baud_rate s
           = (Return tt, sent [0xFE; 0x61; baud_rate] s))
    /\ disp_firmware_version s = (Return tt, sent [0xFE; 0x70] s)
    /\ disp_rs232_baud_rate s = (Return tt, sent [0xFE; 0x71] s)
    /\ disp_i2c_address s = (Return tt, sent [0xFE; 0x72] s).
Proof.
  intros s. repeat split; intros; apply send_cmd_sent.
Qed.

End CommandComposition.

(** ** Further properties: the bus is only appended to *)

Section AppendOnly.

Lemma appends_ret {A} (a : A) : appends (ret a).
Proof. intros s. exists []. by rewrite sent_nil. Qed.

Lemma appends_raise {A} e : appends (@raise A e).
Proof. intros s. exists []. by rewrite sent_nil. Qed.

Lemma appends_lift {A} (o : outcome A) : appends (lift o).
Proof. intros s. exists []. by rewrite sent_nil. Qed.

Lemma appends_write_byte b : appends (write_byte b).
Proof. intros s. by exists [b]. Qed.

Lemma appends_bind {A B} (m : M A) (k : A -> M B) :
  appends m -> (forall a, appends (k a)) -> appends (bind m k).
Proof.
  intros Hm Hk s. unfold bind. destruct (Hm s) as [bs Hbs].
  destruct (m s) as [[a|e] s1]; simpl in Hbs; subst s1.
  - destruct (Hk a (sent bs s)) as [cs Hcs]. exists (bs ++ cs).
    by rewrite Hcs, sent_app.
  - by exists bs.
Qed.

Lemma appends_when b m : appends m -> appends (when b m).
Proof. destruct b; [done|]. intros _. apply appends_ret. Qed.

Lemma appends_for_each {A} (xs : list A) body :
  (forall x, appends (body x)) -> appends (for_each xs body).
Proof.
  intros Hb. induction xs as [|x xs IH]; simpl; [apply appends_ret|].
  apply appends_bind; [apply Hb | done].
Qed.

Lemma appends_send_cmd cmd params : appends (_send_cmd cmd params).
Proof. intros s. eexists. by rewrite send_cmd_sent. Qed.

Lemma appends_write msg : appends (write msg).
Proof.
  apply appends_for_each. intros c.
  apply appends_bind; [apply appends_lift | apply appends_write_byte].
Qed.

Lemma appends_set_cursor_pos line column : appends (set_cursor_pos line column).
Proof.
  unfold set_cursor_pos.
  destruct ((column <? 1) || (column >? 16) || (line <? 1) || (line >? 2));
    [apply appends_raise | apply appends_send_cmd].
Qed.

Lemma appends_clear_line line : appends (clear_line line).
Proof.
  unfold clear_line.
  apply appends_bind; [apply appends_set_cursor_pos | intros _].
  apply appends_bind; [apply appends_write | intros _].
  apply appends_set_cursor_pos.
Qed.

Lemma appends_write_line msg line centered :
  appends (write_line msg line centered).
Proof.
  unfold write_line.
  apply appends_bind; [apply appends_clear_line | intros _].
  cbv zeta.
  apply appends_bind; [apply appends_set_cursor_pos | intros _].
  apply appends_bind; [apply appends_write | intros _].
  apply appends_ret.
Qed.

Lemma appends_words_loop words i : appends (words_loop words i).
Proof.
  revert i. induction words as [|word words IH]; intros i; simpl.
  - apply appends_ret.
  - apply appends_bind; [apply appends_when, appends_write | intros _].
    apply appends_bind; [apply appends_when, appends_set_cursor_pos | intros _].
    apply appends_bind; [apply appends_write | intros _].
    apply IH.
Qed.

Lemma appends_chars_step msg i : appends (chars_step msg i).
Proof.
  unfold chars_step. apply appends_bind.
  - apply appends_when, appends_set_cursor_pos.
  - intros _. destruct (msg !! i); [apply appends_write | apply appends_raise].
Qed.

(** X9.  Every operation of the driver other than
    [change_i2c_address], whether it returns or raises, keeps the
    address of the object and only appends writes addressed to it:
    nothing already on the bus is removed or altered. *)
Theorem operations_append_only :
  (forall cmd params, appends (_send_cmd cmd params))
  /\ (forall code, appends (write_char_from_code code))
  /\ (forall msg, appends (write msg))
  /\ (forall msg line centered, appends (write_line msg line centered))
  /\ (forall msg preserve_words, appends (disp_msg msg preserve_words))
  /\ (forall line column, appends (set_cursor_pos line column))
  /\ (forall line, appends (clear_line line))
  /\ (forall contrast, appends (set_contrast contrast))
  /\ (forall brightness, appends (set_backlight_brightness brightness))
  /\ (forall slot bitmap, appends (load_custom_character slot bitmap))
  /\ appends disp_custom_chars
  /\ (forall n, appends (shift_cursor_left n) /\ appends (shift_cursor_right n)
                /\ appends (shift_display_left n)
                /\ appends (shift_display_right n)).
Proof.
  repeat apply conj.
  - apply appends_send_cmd.
  - intros code. unfold write_char_from_code.
    destruct ((code <? 0) || (code >? 255));
      [apply appends_raise | apply appends_write_byte].
  - apply appends_write.
  - apply appends_write_line.
  - intros msg preserve_words. unfold disp_msg, clear_screen, home_cursor.
    apply appends_bind; [apply appends_send_cmd | intros _].
    apply appends_bind; [apply appends_send_cmd | intros _].
    destruct preserve_words.
    + apply appends_bind; [apply appends_words_loop | intros i].
      apply appends_ret.
    + apply appends_bind; [|intros _; apply appends_ret].
      apply appends_for_each, appends_chars_step.
  - apply appends_set_cursor_pos.
  - apply appends_clear_line.
  - intros contrast. unfold set_contrast.
    destruct ((contrast <? 1) || (contrast >? 50));
      [apply appends_raise | apply appends_send_cmd].
  - intros brightness. unfold set_backlight_brightness.
    destruct ((brightness <? 1) || (brightness >? 8));
      [apply appends_raise | apply appends_send_cmd].
  - intros slot bitmap s. rewrite load_custom_character_accepts.
    repeat case_decide; cbn [snd];
      [by eexists | exists []; by rewrite sent_nil ..].
  - unfold disp_custom_chars.
    apply appends_bind; [apply appends_write_line | intros _].
    apply appends_bind; [apply appends_write_line | intros _].
    apply appends_ret.
  - intros n. unfold shift_cursor_left, shift_cursor_right,
      shift_display_left, shift_display_right.
    repeat split; apply appends_for_each; intros _; apply appends_send_cmd.
Qed.

End AppendOnly.

(** ** Further properties: the encoder and [write] *)

Section EncoderAndWrite.

Lemma table_bytes_in_range :
  Forall (fun kv => 0 <= kv.2 <= 0xFF /\ ~ (32 <= kv.2 <= 125 /\ kv.2 <> 92))
         (custom_char_items ++ symbol_items).
Proof. apply (bool_decide_unpack _). by vm_compute. Qed.

Lemma table_bytes_NoDup : NoDup (custom_char_items ++ symbol_items).*2.
Proof. apply (bool_decide_unpack _). by vm_compute. Qed.

Lemma NoDup_snd_inj {A B} (l : list (A * B)) a1 a2 b :
  NoDup l.*2 -> (a1, b) ∈ l -> (a2, b) ∈ l -> a1 = a2.
Proof.
  induction l as [|[a' b'] l IH]; csimpl; intros Hnd H1 H2.
  - by apply elem_of_nil in H1.
  - apply NoDup_cons in Hnd as [Hnotin Hnd].
    apply elem_of_cons in H1 as [[= -> ->] | H1];
      apply elem_of_cons in H2 as [[= ->] | H2].
    + done.
    + exfalso. apply Hnotin. apply list_elem_of_fmap. by exists (a2, b').
    + subst b'. exfalso. apply Hnotin. apply list_elem_of_fmap.
      by exists (a1, b).
    + by apply IH.
Qed.

(** X10.  Whatever the encoder returns is a byte in 0..0xFF and is never
    the command escape 0xFE, so text passed through the encoder cannot
    start a framed command. *)
Theorem encoder_output_is_text_byte :
  forall c b, encodes c b -> 0 <= b <= 0xFF /\ b <> 0xFE.
Proof.
  intros c b H. split; [|by apply (encodes_not_escape c)].
  apply get_char_code_return in H as [Hs | (-> & Hr & _)]; [|lia].
  apply special_chars_Some in Hs.
  pose proof table_bytes_in_range as Hall.
  rewrite Forall_forall in Hall. apply (Hall _ Hs).
Qed.

Lemma encoder_output_is_text_byte_witness :
  0 <= 0xFF <= 0xFF /\ 0xFF <> 0xFE.
Proof.
  apply (encoder_output_is_text_byte black_square 0xFF). reflexivity.
Defined.

(** X11.  The encoder is injective on the characters it supports: two
    characters with the same byte are the same character. *)
Theorem encoder_injective :
  forall c1 c2 b, encodes c1 b -> encodes c2 b -> c1 = c2.
Proof.
  intros c1 c2 b H1 H2.
  pose proof table_bytes_in_range as Hall. rewrite Forall_forall in Hall.
  apply get_char_code_return in H1 as [Hs1 | (-> & Hr1 & Hb1)];
    apply get_char_code_return in H2 as [Hs2 | (Heq & Hr2 & Hb2)].
  - apply special_chars_Some in Hs1, Hs2.
    apply (NoDup_snd_inj _ _ _ _ table_bytes_NoDup Hs1 Hs2).
  - subst b. apply special_chars_Some in Hs1.
    destruct (Hall _ Hs1) as [_ Hn]. simpl in Hn. tauto.
  - apply special_chars_Some in Hs2.
    destruct (Hall _ Hs2) as [_ Hn]. simpl in Hn. tauto.
  - done.
Qed.

Lemma encoder_injective_witness : yen = 0xA5.
Proof. apply (encoder_injective yen 0xA5 0x5C); reflexivity. Defined.

Lemma legal_encodable msg :
  Forall in_legal_set msg -> exists codes, Forall2 encodes msg codes.
Proof.
  induction 1 as [|c msg Hc _ [codes IH]]; [by exists []|].
  destruct (get_char_code_legal c Hc) as [b Hb].
  exists (b :: codes). by constructor.
Qed.

Lemma encodable_legal msg codes :
  Forall2 encodes msg codes -> Forall in_legal_set msg.
Proof.
  induction 1 as [|c b msg codes Hc _ IH]; constructor; [|done].
  destruct (decide (in_legal_set c)) as [|Hn]; [done|].
  unfold encodes in Hc. by rewrite (get_char_code_outside c Hn) in Hc.
Qed.

Lemma write_return_inv msg s r s' :
  write msg s = (Return r, s') ->
  exists codes, Forall2 encodes msg codes /\ s' = sent codes s.
Proof.
  revert s. induction msg as [|c msg IH]; intros s.
  - intros [= _ <-]. exists []. by rewrite sent_nil.
  - destruct (_get_char_code c) as [b|e] eqn:Hc.
    + rewrite (write_cons_ok c b msg s Hc).
      intros (codes & Hcodes & ->)%IH. exists (b :: codes).
      split; [by constructor|]. by rewrite <- sent_app.
    + by rewrite (write_cons_raise c e msg s Hc).
Qed.

(** X12.  [write] returns exactly when every character of the text is
    supported, and then it has put one byte per character on the bus. *)
Theorem write_returns_iff_supported :
  (forall msg s,
      Forall in_legal_set msg <-> exists s', write msg s = (Return tt, s'))
  /\ (forall msg s s',
         write msg s = (Return tt, s') ->
         length (bus s') = (length (bus s) + length msg)%nat).
Proof.
  split.
  - intros msg s. split.
    + intros [codes Hc]%legal_encodable. exists (sent codes s).
      by apply write_ok.
    + intros [s' (codes & Hc & _)%write_return_inv].
      by apply (encodable_legal msg codes).
  - intros msg s s' (codes & Hc & ->)%write_return_inv.
    unfold sent. cbn [bus]. rewrite length_app, length_map.
    by rewrite (Forall2_length _ _ _ Hc).
Qed.

Lemma write_returns_iff_supported_witness :
  length (bus (sent HELLO lcd0)) = (length (bus lcd0) + length HELLO)%nat.
Proof.
  destruct write_returns_iff_supported as (_ & Hlen).
  apply (Hlen HELLO lcd0 (sent HELLO lcd0)). reflexivity.
Defined.

(** X13.  Writing a concatenation is writing the parts one after the
    other, also when one of them raises. *)
Theorem write_concatenation :
  forall m1 m2 s, write (m1 ++ m2) s = (write m1 ;; write m2) s.
Proof. intros m1 m2 s. unfold write. apply for_each_bind. Qed.

(** X14.  The blank is the only whitespace character the encoder
    supports: tabs, newlines and the other separators of [split] have
    no code. *)
Theorem supported_whitespace_is_blank :
  forall c, isspace c = true -> in_legal_set c -> c = 0x20.
Proof.
  intros c Hsp [H7 | [Hk | [Hr Hb]]]; unfold isspace in Hsp.
  - lia.
  - unfold symbol_keys in Hk. cbn [map symbol_items fst] in Hk.
    rewrite !elem_of_cons, elem_of_nil in Hk.
    unfold yen, right_arrow, left_arrow, degree, alpha, a_umlaut, n_tilde,
      o_umlaut, beta, open_E, mu, sigma, rho, sqrt_sign, cent, theta,
      infinity, Omega, Sigma, pi, division, black_square in Hk.
    lia.
  - lia.
Qed.

Lemma supported_whitespace_is_blank_witness : 0x20 = 0x20.
Proof.
  apply (supported_whitespace_is_blank 0x20); [reflexivity|].
  right. right. lia.
Defined.

End EncoderAndWrite.

(** ** Further properties: preserve-words mode *)

Section WordMode.

Lemma separator_step i s :
  when (negb (i =? 16) && negb (i =? 0)) (write [0x20]) s
  = (Return tt, sent (if decide (i <> 16 /\ i <> 0) then [0x20] else []) s).
Proof.
  destruct (decide (i <> 16 /\ i <> 0)) as [Hi|Hi].
  - replace (negb (i =? 16) && negb (i =? 0)) with true by lia.
    simpl. apply (write_ok [0x20] [0x20]). by repeat constructor.
  - replace (negb (i =? 16) && negb (i =? 0)) with false by lia.
    simpl. by rewrite sent_nil.
Qed.

Lemma jump_step i n s :
  when (i + n >? 16) (set_cursor_pos 2 1) s
  = (Return tt, sent (if decide (i + n > 16) then line2_jump_bytes else []) s).
Proof.
  destruct (decide (i + n > 16)) as [Hi|Hi].
  - replace (i + n >? 16) with true by lia.
    simpl. by rewrite set_cursor_pos_ok by lia.
  - replace (i + n >? 16) with false by lia.
    simpl. by rewrite sent_nil.
Qed.

Lemma words_loop_return_inv words :
  forall i s r s',
    words_loop words i s = (Return r, s') ->
    exists wcodes, Forall2 (Forall2 encodes) words wcodes.
Proof.
  induction words as [|word words IH]; intros i s r s'; [by exists []|].
  cbn [words_loop].
  rewrite (bind_return _ _ _ _ _ (separator_step i s)).
  rewrite (bind_return _ _ _ _ _ (jump_step i (len word) _)).
  unfold bind at 1.
  destruct (write word _) as [[[]|e] s3] eqn:Hw; [|done].
  apply write_return_inv in Hw as (codes & Hcodes & _).
  intros [wcodes Hrest]%IH. exists (codes :: wcodes). by constructor.
Qed.

Lemma disp_msg_words_return_inv msg s r s' :
  disp_msg msg true s = (Return r, s') ->
  exists wcodes, Forall2 (Forall2 encodes) (split msg) wcodes.
Proof.
  unfold disp_msg, clear_screen, home_cursor.
  rewrite (bind_return _ _ _ _ _ (send_cmd_sent _ _ _)).
  rewrite (bind_return _ _ _ _ _ (send_cmd_sent _ _ _)).
  unfold bind at 1.
  destruct (words_loop (split msg) 0 _) as [[i|e] s3] eqn:Hw; [|done].
  intros _. by apply words_loop_return_inv in Hw.
Qed.

Lemma words_encodable (words : list str) :
  Forall in_legal_set (mjoin words) ->
  exists wcodes, Forall2 (Forall2 encodes) words wcodes.
Proof.
  induction words as [|w words IH]; simpl; [by exists []|].
  intros [Hw Hrest]%Forall_app.
  destruct (legal_encodable w Hw) as [codes Hcodes].
  destruct (IH Hrest) as [wcodes Hwcodes].
  exists (codes :: wcodes). by constructor.
Qed.

(** X15.  In preserve-words mode [disp_msg] returns exactly when every
    non-whitespace character of the message is supported: whitespace of
    any kind (tabs, newlines, ...) is consumed by [split] and never
    makes it raise. *)
Theorem disp_msg_words_returns_iff :
  forall msg s,
    Forall in_legal_set (filter nonspace msg)
    <-> exists r s', disp_msg msg true s = (Return r, s').
Proof.
  intros msg s. rewrite <- split_join. split.
  - intros [wcodes Hw]%words_encodable.
    rewrite (disp_msg_words_ok _ _ _ Hw). eauto.
  - intros (r & s' & [wcodes Hw]%disp_msg_words_return_inv).
    apply (encodable_legal _ (mjoin wcodes)). by apply encoded_words_join.
Qed.

Lemma count_after_join i (ws : list (list Z)) :
  count_after i ws = i + len (mjoin ws) + len ws.
Proof.
  revert i. induction ws as [|w ws IH]; intros i; simpl.
  - unfold len. simpl. lia.
  - rewrite IH. unfold len. rewrite length_app. simpl. lia.
Qed.

(** X16.  When [disp_msg] returns in preserve-words mode, its result
    says whether the number of non-whitespace characters plus the
    number of words is at most 33. *)
Theorem disp_msg_words_fits_value :
  forall msg s r s',
    disp_msg msg true s = (Return r, s') ->
    r = (len (filter nonspace msg) + len (split msg) <=? 33).
Proof.
  intros msg s r s' H.
  destruct (disp_msg_words_return_inv _ _ _ _ H) as [wcodes Hw].
  rewrite (disp_msg_words_ok _ _ _ Hw) in H. injection H as <- _.
  rewrite word_layout_count.
  rewrite <- (count_after_lengths 0 (split msg) wcodes)
    by (eapply Forall2_impl; [exact Hw | apply encodes_len]).
  by rewrite count_after_join, split_join.
Qed.

Lemma disp_msg_words_fits_value_witness :
  true = (len (filter nonspace ab_cd) + len (split ab_cd) <=? 33).
Proof.
  apply (disp_msg_words_fits_value ab_cd lcd0 true
           (sent (screen_reset_bytes ++ ab_cd) lcd0)).
  reflexivity.
Defined.

Lemma split_from_blank msg :
  Forall (fun c => isspace c = true) msg -> split_from [] msg = [].
Proof.
  induction 1 as [|c msg Hc _ IH]; simpl; [done|]. by rewrite Hc.
Qed.

(** X17.  A message made of whitespace only, the empty message
    included, has no words: in preserve-words mode [disp_msg] clears
    the screen, homes the cursor, writes nothing else and returns
    true. *)
Theorem disp_msg_words_blank_message :
  forall msg s,
    Forall (fun c => isspace c = true) msg ->
    disp_msg msg true s = (Return true, sent screen_reset_bytes s).
Proof.
  intros msg s Hb.
  assert (Forall2 (Forall2 encodes) (split msg) []) as Hw.
  { unfold split. rewrite (split_from_blank msg Hb). constructor. }
  by rewrite (disp_msg_words_ok _ _ _ Hw).
Qed.

Lemma disp_msg_words_blank_message_witness :
  disp_msg [9; 10; 32; 0x3000] true lcd0
  = (Return true, sent screen_reset_bytes lcd0).
Proof.
  apply (disp_msg_words_blank_message [9; 10; 32; 0x3000] lcd0).
  repeat constructor.
Defined.

Lemma word_layout_app i (ws vs : list (list Z)) :
  word_layout i (ws ++ vs)
  = (fst (word_layout i ws) ++ fst (word_layout (count_after i ws) vs),
     count_after i (ws ++ vs)).
Proof.
  revert i. induction ws as [|w ws IH]; intros i.
  - simpl. rewrite <- word_layout_count. by destruct (word_layout i vs).
  - cbn [app word_layout count_after]. cbv zeta.
    rewrite IH. destruct (word_layout (i + len w + 1) ws) as [bs i'].
    cbn [fst]. by rewrite <- !app_assoc.
Qed.

Lemma word_layout_past_16 i (ws : list (list Z)) :
  i > 16 ->
  fst (word_layout i ws)
  = mjoin (map (fun w => 0x20 :: line2_jump_bytes ++ w) ws).
Proof.
  revert i. induction ws as [|w ws IH]; intros i Hi; [done|].
  cbn [word_layout map]. cbv zeta.
  pose proof (Nat2Z.is_nonneg (length w)) as Hw. fold (len w) in Hw.
  specialize (IH (i + len w + 1) ltac:(lia)).
  destruct (word_layout (i + len w + 1) ws) as [bs i'].
  cbn [fst] in *. rewrite IH.
  rewrite decide_True by lia. rewrite decide_True by lia.
  change (mjoin ((32 :: line2_jump_bytes ++ w) :: ?l))
    with ((32 :: line2_jump_bytes ++ w) ++ mjoin l).
  change ([32] ++ ?l) with (32 :: l).
  cbn [app]. by rewrite <- app_assoc.
Qed.

(** X18.  For a message whose words consist of supported characters:
    once the running count has passed 16, every further word is
    sent as a blank, the jump to line 2 column 1 and then the word, so
    each of these words is written over line 2 from its first column on
    (and the result can still be true). *)
Theorem disp_msg_words_rejump :
  forall msg wcodes k s,
    Forall2 (Forall2 encodes) (split msg) wcodes ->
    count_after 0 (take k wcodes) > 16 ->
    bytes_of (snd (disp_msg msg true s))
    = bytes_of s ++ screen_reset_bytes
      ++ fst (word_layout 0 (take k wcodes))
      ++ mjoin (map (fun w => 0x20 :: line2_jump_bytes ++ w) (drop k wcodes)).
Proof.
  intros msg wcodes k s Hw Hk.
  rewrite (disp_msg_words_ok _ _ _ Hw). cbn [snd].
  rewrite bytes_of_sent. do 2 f_equal.
  rewrite <- (take_drop k wcodes) at 1.
  rewrite word_layout_app. cbn [fst].
  by rewrite (word_layout_past_16 _ (drop k wcodes) Hk).
Qed.

Lemma disp_msg_words_rejump_witness :
  bytes_of (snd (disp_msg (A_times 9 ++ 32 :: A_times 9 ++ 32 :: A_times 9)
                          true lcd0))
  = bytes_of lcd0 ++ screen_reset_bytes
    ++ fst (word_layout 0 (take 2 [A_times 9; A_times 9; A_times 9]))
    ++ mjoin (map (fun w => 0x20 :: line2_jump_bytes ++ w)
                  (drop 2 [A_times 9; A_times 9; A_times 9]))
  /\ fst (disp_msg (A_times 9 ++ 32 :: A_times 9 ++ 32 :: A_times 9)
                   true lcd0) = Return true.
Proof.
  split; [|reflexivity].
  apply (disp_msg_words_rejump
           (A_times 9 ++ 32 :: A_times 9 ++ 32 :: A_times 9)
           [A_times 9; A_times 9; A_times 9] 2 lcd0).
  - repeat constructor.
  - reflexivity.
Defined.

End WordMode.

(** ** Further properties: character mode and [write_line] *)

Section CharacterMode.

(** The character loop over a prefix of the message whose characters
    are all supported. *)
Lemma chars_loop_prefix_ok pre codes tail s :
  Forall2 encodes pre codes ->
  for_each (seq 0 (length pre)) (chars_step (pre ++ tail)) s
  = (Return tt, sent (char_layout codes) s).
Proof.
  intros Hm. unfold char_layout. unfold len.
  pose proof (Forall2_length _ _ _ Hm) as Hlen.
  destruct (decide (Z.of_nat (length codes) > 16)) as [Hbig|Hsmall].
  - assert (exists p c rest, pre = p ++ c :: rest /\ length p = 16%nat)
      as (p & c & rest & -> & Hp).
    { exists (take 16 pre).
      destruct (drop 16 pre) as [|c rest] eqn:Hd.
      - apply (f_equal length) in Hd. rewrite length_drop in Hd.
        simpl in Hd. lia.
      - exists c, rest. split.
        + by rewrite <- Hd, take_drop.
        + rewrite length_take. lia. }
    apply Forall2_app_inv_l in Hm as (cp & crest' & Hcp & Hcrest & ->).
    apply Forall2_cons_inv_l in Hcrest as (b & crest & Hb & Hcrest & ->).
    pose proof (Forall2_length _ _ _ Hcp) as Hlp.
    rewrite take_app_length' by lia.
    rewrite drop_app_length' by lia.
    rewrite length_app. cbn [length].
    replace (length p + S (length rest))%nat
      with (length p + (1 + length rest))%nat by lia.
    rewrite seq_app. cbn [seq Nat.add].
    rewrite <- !app_assoc. cbn [app].
    pose proof (chars_steps_plain p cp Hcp [] (c :: rest ++ tail) s) as H1.
    simpl in H1. rewrite (for_each_app _ _ _ _ _ (H1 ltac:(lia))).
    cbn [for_each].
    assert (chars_step (p ++ c :: rest ++ tail) (length p) (sent cp s)
            = (Return tt, sent (line2_jump_bytes ++ [b]) (sent cp s)))
      as Hstep.
    { unfold chars_step. rewrite Hp. cbn [Nat.eqb when].
      rewrite (bind_return _ _ _ _ _
                 (set_cursor_pos_ok 2 1 _ ltac:(lia) ltac:(lia))).
      rewrite <- Hp, list_lookup_middle by done.
      rewrite (write_ok [c] [b]) by (by repeat constructor).
      by rewrite <- sent_app. }
    replace (length p + 0)%nat with (length p) by lia.
    rewrite (bind_return _ _ _ _ _ Hstep).
    pose proof (chars_steps_plain rest crest Hcrest (p ++ [c]) tail) as H2.
    rewrite length_app in H2. simpl in H2.
    replace (length p + 1)%nat with (S (length p)) in H2 by lia.
    rewrite <- app_assoc in H2. simpl in H2.
    rewrite H2 by lia.
    rewrite <- !sent_app. by rewrite <- !app_assoc.
  - pose proof (chars_steps_plain pre codes Hm [] tail s) as H1.
    simpl in H1. rewrite H1 by lia.
    rewrite take_ge by lia. by rewrite app_nil_r.
Qed.

Lemma first_unsupported msg :
  ~ Forall in_legal_set msg ->
  exists pre c post,
    msg = pre ++ c :: post /\ Forall in_legal_set pre /\ ~ in_legal_set c.
Proof.
  induction msg as [|c msg IH]; intros Hn.
  - exfalso. apply Hn. constructor.
  - destruct (decide (in_legal_set c)) as [Hc|Hc].
    + destruct IH as (pre & c' & post & -> & Hpre & Hc').
      { intros Hall. apply Hn. by constructor. }
      exists (c :: pre), c', post. repeat split; [by constructor | done].
    + exists [], c, msg. repeat split; [constructor | done].
Qed.

(** The character loop stopped by the first unsupported character. *)
Lemma disp_msg_chars_raise :
  forall pre codes c post s,
    Forall2 encodes pre codes -> ~ in_legal_set c ->
    disp_msg (pre ++ c :: post) false s
    = (Raise (UnsupportedCharacter c),
       sent (screen_reset_bytes
             ++ take 16 codes
             ++ (if decide (len pre >= 16)
                 then line2_jump_bytes ++ drop 16 codes else [])) s).
Proof.
  intros pre codes c post s Hpre Hc.
  pose proof (Forall2_length _ _ _ Hpre) as Hlen.
  unfold disp_msg, clear_screen, home_cursor.
  rewrite (bind_return _ _ _ _ _ (send_cmd_sent _ _ _)).
  rewrite (bind_return _ _ _ _ _ (send_cmd_sent _ _ _)).
  apply bind_raise.
  unfold range, len. rewrite Nat2Z.id, length_app. cbn [length].
  rewrite seq_app. cbn [seq Nat.add].
  rewrite (for_each_app _ _ _ _ _
             (chars_loop_prefix_ok pre codes (c :: post) _ Hpre)).
  cbn [for_each]. apply bind_raise.
  unfold chars_step. rewrite list_lookup_middle by done.
  pose proof (get_char_code_outside c Hc) as Hraise.
  unfold char_layout, len.
  destruct (decide (length pre = 16%nat)) as [H16|H16].
  - rewrite H16. cbn [Nat.eqb when].
    rewrite (bind_return _ _ _ _ _
               (set_cursor_pos_ok 2 1 _ ltac:(lia) ltac:(lia))).
    rewrite (write_cons_raise c _ [] _ Hraise).
    rewrite decide_False by lia. rewrite decide_True by lia.
    rewrite drop_ge by lia.
    rewrite <- !sent_app. by rewrite <- !app_assoc, !app_nil_r.
  - replace (Nat.eqb (length pre) 16) with false
      by (symmetry; by apply Nat.eqb_neq).
    cbn [when]. unfold bind, ret.
    rewrite (write_cons_raise c _ [] _ Hraise).
    destruct (decide (Z.of_nat (length codes) > 16));
      [rewrite decide_True by lia | rewrite decide_False by lia];
      rewrite <- !sent_app; by rewrite <- ?app_assoc.
Qed.

(** X19.  In character mode an unsupported character stops [disp_msg]
    with the unsupported-character error after the screen was cleared
    and the characters before it were written; when sixteen or more
    precede it, the jump to line 2 has been sent as well. *)
Theorem disp_msg_chars_unsupported :
  forall pre codes c post s,
    Forall2 encodes pre codes -> ~ in_legal_set c ->
    disp_msg (pre ++ c :: post) false s
    = (Raise (UnsupportedCharacter c),
       sent (screen_reset_bytes
             ++ take 16 codes
             ++ (if decide (len pre >= 16)
                 then line2_jump_bytes ++ drop 16 codes else [])) s).
Proof. exact disp_msg_chars_raise. Qed.

Lemma disp_msg_chars_unsupported_witness :
  disp_msg (A_times 16 ++ 10 :: [66]) false lcd0
  = (Raise (UnsupportedCharacter 10),
     sent (screen_reset_bytes ++ A_times 16 ++ line2_jump_bytes) lcd0).
Proof.
  apply (disp_msg_chars_unsupported (A_times 16) (A_times 16) 10 [66] lcd0).
  - repeat constructor.
  - intros [H | [H | H]]; [lia | | lia].
    apply symbol_keys_range in H. lia.
Defined.

(** X20.  In character mode [disp_msg] returns exactly when every
    character of the message, whitespace included, is supported. *)
Theorem disp_msg_chars_returns_iff :
  forall msg s,
    Forall in_legal_set msg
    <-> exists r s', disp_msg msg false s = (Return r, s').
Proof.
  intros msg s. split.
  - intros [codes Hc]%legal_encodable.
    rewrite (disp_msg_chars_ok _ _ _ Hc). eauto.
  - intros (r & s' & H).
    destruct (decide (Forall in_legal_set msg)) as [|Hn]; [done|].
    destruct (first_unsupported msg Hn) as (pre & c & post & -> & Hpre & Hc).
    destruct (legal_encodable pre Hpre) as [codes Hcodes].
    by rewrite (disp_msg_chars_raise _ _ _ _ _ Hcodes Hc) in H.
Qed.

(** X21.  [write_line] checks the line first: on a line other than 1 or
    2 it raises the bounds error before anything is written, whatever
    the text.  On a valid line, with a start column in range, an
    unsupported character raises after the line was cleared, the cursor
    positioned and the characters before it written. *)
Theorem write_line_failures :
  (forall msg line centered s,
      ~ (1 <= line <= 2) ->
      write_line msg line centered s = (Raise CursorOffScreen, s))
  /\ (forall pre codes c post line centered s,
         1 <= line <= 2 -> Forall2 encodes pre codes -> ~ in_legal_set c ->
         centered = false \/ len (pre ++ c :: post) <= 16 ->
         write_line (pre ++ c :: post) line centered s
         = (Raise (UnsupportedCharacter c),
            sent (clear_line_bytes line
                  ++ [0xFE; 0x45;
                      pos line (if centered
                                then 1 + (16 - len (pre ++ c :: post)) / 2
                                else 1)]
                  ++ codes) s)).
Proof.
  split; [apply write_line_bad_line|].
  intros pre codes c post line centered s Hl Hpre Hc Hfit.
  unfold write_line.
  rewrite (bind_return _ _ _ _ _ (clear_line_ok line s Hl)).
  cbv zeta. set (msg := pre ++ c :: post) in *.
  assert (1 <= (if centered then 1 + (16 - len msg) / 2 else 1) <= 16) as Hcol.
  { destruct centered; [|lia].
    destruct Hfit as [|Hfit]; [done|].
    assert (0 <= len msg) by (unfold len; lia).
    assert (0 <= (16 - len msg) / 2 <= 8); [|lia].
    split; [apply Z.div_pos; lia|].
    apply Z.div_le_upper_bound; lia. }
  rewrite (bind_return _ _ _ _ _ (set_cursor_pos_ok _ _ _ Hl Hcol)).
  apply bind_raise. subst msg.
  rewrite (write_raise pre codes c _ post _ Hpre (get_char_code_outside c Hc)).
  by rewrite <- !sent_app.
Qed.

Lemma write_line_failures_witness :
  write_line HELLO 3 true lcd0 = (Raise CursorOffScreen, lcd0)
  /\ write_line ([72; 105] ++ 9 :: [33]) 1 false lcd0
     = (Raise (UnsupportedCharacter 9),
        sent (clear_line_bytes 1 ++ [0xFE; 0x45; 0x00] ++ [72; 105]) lcd0).
Proof.
  destruct write_line_failures as (Hline & Hchar).
  split; [apply (Hline HELLO 3 true lcd0); lia|].
  apply (Hchar [72; 105] [72; 105] 9 [33] 1 false lcd0);
    [lia | repeat constructor | | by left].
  intros [H | [H | H]]; [lia | | lia].
  apply symbol_keys_range in H. lia.
Defined.

(** X22.  A centred text of at most 16 supported characters is placed
    inside the line: the blank columns to its left and right add up with
    the text to 16, and the right margin equals the left one or exceeds
    it by one. *)
Theorem write_line_centered_margins :
  forall msg codes line s,
    1 <= line <= 2 -> Forall2 encodes msg codes -> len msg <= 16 ->
    exists left right,
      write_line msg line true s
      = (Return true,
         sent (clear_line_bytes line
               ++ [0xFE; 0x45; (line - 1) * 0x40 + left] ++ codes) s)
      /\ left + len msg + right = 16
      /\ 0 <= left <= right /\ right <= left + 1.
Proof.
  intros msg codes line s Hl Hm Hfit.
  assert (0 <= len msg) as H0 by (unfold len; lia).
  exists ((16 - len msg) / 2), (16 - len msg - (16 - len msg) / 2).
  split.
  - rewrite (write_line_ok msg codes line true s Hl Hm (or_intror Hfit)).
    replace (len msg <=? 16) with true by lia.
    replace (pos line (1 + (16 - len msg) / 2))
      with ((line - 1) * 0x40 + (16 - len msg) / 2) by (unfold pos; lia).
    done.
  - pose proof (Z.div_mod (16 - len msg) 2 ltac:(lia)) as Hdm.
    pose proof (Z.mod_pos_bound (16 - len msg) 2 ltac:(lia)) as Hmod.
    lia.
Qed.

Lemma write_line_centered_margins_witness :
  exists left right,
    write_line HELLO 1 true lcd0
    = (Return true,
       sent (clear_line_bytes 1
             ++ [0xFE; 0x45; (1 - 1) * 0x40 + left] ++ HELLO) lcd0)
    /\ left + len HELLO + right = 16
    /\ 0 <= left <= right /\ right <= left + 1.
Proof.
  apply (write_line_centered_margins HELLO HELLO 1 lcd0);
    [lia | repeat constructor | by vm_compute].
Defined.

(** X23.  [disp_custom_chars] never raises: it rewrites both lines from
    column 1, the eight slot codes 0..7 on line 1 and the digits "0" to
    "7" below them on line 2. *)
Theorem disp_custom_chars_layout :
  forall s,
    disp_custom_chars s
    = (Return tt,
       sent (clear_line_bytes 1 ++ [0xFE; 0x45; 0x00]
             ++ [0; 1; 2; 3; 4; 5; 6; 7]
             ++ clear_line_bytes 2 ++ [0xFE; 0x45; 0x40]
             ++ [48; 49; 50; 51; 52; 53; 54; 55]) s).
Proof.
  intros s. unfold disp_custom_chars.
  assert (Forall2 encodes [0; 1; 2; 3; 4; 5; 6; 7] [0; 1; 2; 3; 4; 5; 6; 7])
    as H1 by repeat constructor.
  assert (Forall2 encodes [48; 49; 50; 51; 52; 53; 54; 55]
                          [48; 49; 50; 51; 52; 53; 54; 55])
    as H2 by repeat constructor.
  rewrite (bind_return _ _ _ _ _
             (write_line_ok _ _ 1 false s ltac:(lia) H1 (or_introl eq_refl))).
  rewrite (bind_return _ _ _ _ _
             (write_line_ok _ _ 2 false _ ltac:(lia) H2 (or_introl eq_refl))).
  unfold ret. rewrite <- sent_app. by rewrite <- !app_assoc.
Qed.

End CharacterMode.

(** ** Whitespace normalisation in preserve-words mode *)

Section WhitespaceNormalisation.

Lemma isspace_set c :
  space c
  <-> 0x09 <= c <= 0x0D \/ 0x1C <= c <= 0x20 \/ c = 0x85 \/ c = 0xA0
      \/ c = 0x1680 \/ 0x2000 <= c <= 0x200A \/ c = 0x2028 \/ c = 0x2029
      \/ c = 0x202F \/ c = 0x205F \/ c = 0x3000.
Proof. unfold space, isspace. lia. Qed.

(** A single whitespace character ends the word being scanned. *)
Lemma split_from_sep cur a c b :
  space c -> split_from cur (a ++ c :: b) = split_from cur a ++ split b.
Proof.
  intros Hc. revert cur. induction a as [|x a IH]; intros cur; simpl.
  - rewrite Hc. by destruct cur.
  - destruct (isspace x); [|apply IH].
    destruct cur; simpl; by rewrite IH.
Qed.

Lemma split_run a run b :
  run <> [] -> Forall space run -> split (a ++ run ++ b) = split a ++ split b.
Proof.
  intros Hne Hrun. revert a Hne.
  induction Hrun as [|c run Hc _ IH]; intros a Hne; [done|].
  cbn [app]. unfold split at 1. rewrite (split_from_sep [] a c _ Hc).
  fold (split a). f_equal.
  destruct run as [|c' run']; [done|].
  apply (IH [] ltac:(done)).
Qed.

Lemma split_trim lead msg trail :
  Forall space lead -> Forall space trail ->
  split (lead ++ msg ++ trail) = split msg.
Proof.
  intros Hlead Htrail.
  assert (split (msg ++ trail) = split msg) as Ht.
  { destruct trail as [|c trail]; [by rewrite app_nil_r|].
    rewrite <- (app_nil_r (c :: trail)).
    rewrite (split_run msg (c :: trail) []) by done.
    apply app_nil_r. }
  destruct lead as [|c lead]; [done|].
  rewrite <- Ht. apply (split_run [] (c :: lead) (msg ++ trail)); done.
Qed.

Lemma split_from_word cur w :
  Forall nonspace w -> cur <> [] \/ w <> [] ->
  split_from cur w = [rev cur ++ w].
Proof.
  intros Hw. revert cur. induction Hw as [|x w Hx _ IH]; intros cur Hne; simpl.
  - destruct cur; [by destruct Hne|]. by rewrite app_nil_r.
  - rewrite Hx, IH by (by left). simpl. by rewrite <- app_assoc.
Qed.

Lemma split_word w : is_word w -> split w = [w].
Proof.
  intros [Hne Hw]. unfold split. rewrite split_from_word; [done..|by right].
Qed.

Lemma split_blank_join words :
  Forall is_word words -> split (blank_join words) = words.
Proof.
  induction 1 as [|w words Hw Hws IH]; [done|].
  destruct words as [|w2 rest]; [by apply split_word|].
  change (blank_join (w :: w2 :: rest))
    with (w ++ 0x20 :: blank_join (w2 :: rest)).
  unfold split at 1. rewrite (split_from_sep [] w 0x20) by done.
  fold (split w). by rewrite (split_word w Hw), IH.
Qed.

Lemma words_legal_encodable (words : list str) :
  Forall (Forall in_legal_set) words ->
  exists wcodes, Forall2 (Forall2 encodes) words wcodes.
Proof.
  induction 1 as [|w words Hw _ [wcodes IH]]; [by exists []|].
  destruct (legal_encodable w Hw) as [codes Hcodes].
  exists (codes :: wcodes). by constructor.
Qed.

Lemma first_failure {A} (P : A -> Prop) `{forall x, Decision (P x)} l :
  ~ Forall P l ->
  exists l1 x l2, l = l1 ++ x :: l2 /\ Forall P l1 /\ ~ P x.
Proof.
  induction l as [|x l IH]; intros Hn.
  - exfalso. apply Hn. constructor.
  - destruct (decide (P x)) as [Hx|Hx].
    + destruct IH as (l1 & y & l2 & -> & Hl1 & Hy).
      { intros Hall. apply Hn. by constructor. }
      exists (x :: l1), y, l2. repeat split; [by constructor | done].
    + exists [], x, l. repeat split; [constructor | done].
Qed.

(** The word loop stopped by the first unsupported character: the words
    before it are laid out, then the blank and the jump of the failing
    word and the characters of that word before the unsupported one. *)
Lemma words_loop_raise ws1 wc1 :
  Forall2 (Forall2 encodes) ws1 wc1 ->
  forall pre pcodes c post ws2 i s,
    Forall2 encodes pre pcodes -> ~ in_legal_set c ->
    words_loop (ws1 ++ (pre ++ c :: post) :: ws2) i s
    = (Raise (UnsupportedCharacter c),
       sent (fst (word_layout i wc1)
             ++ (if decide (count_after i ws1 <> 16 /\ count_after i ws1 <> 0)
                 then [0x20] else [])
             ++ (if decide (count_after i ws1 + len (pre ++ c :: post) > 16)
                 then line2_jump_bytes else [])
             ++ pcodes) s).
Proof.
  induction 1 as [|w v ws1 wc1 Hw _ IH];
    intros pre pcodes c post ws2 i s Hpre Hc.
  - cbn [app words_loop word_layout count_after fst].
    rewrite (bind_return _ _ _ _ _ (separator_step i s)).
    rewrite (bind_return _ _ _ _ _ (jump_step i _ _)).
    apply bind_raise.
    rewrite (write_raise pre pcodes c _ post _ Hpre
               (get_char_code_outside c Hc)).
    by rewrite <- !sent_app.
  - cbn [app words_loop word_layout count_after]. cbv zeta.
    rewrite (bind_return _ _ _ _ _ (separator_step i s)).
    rewrite (bind_return _ _ _ _ _ (jump_step i _ _)).
    rewrite (bind_return _ _ _ _ _ (write_ok _ _ _ Hw)).
    rewrite (IH pre pcodes c post ws2 _ _ Hpre Hc).
    rewrite <- (encodes_len _ _ Hw).
    destruct (word_layout (i + len w + 1) wc1) as [bs i'].
    cbn [fst]. rewrite <- !sent_app. by rewrite <- !app_assoc.
Qed.

(** C10.  In preserve-words mode the message reaches the layout only
    through [split], whose separators are the whitespace characters of
    CPython.  Any non-empty run of whitespace is one separator, leading
    and trailing whitespace is discarded, a word is kept whole, and
    splitting the words joined by single blanks gives the words back;
    every word is a non-empty run of non-whitespace characters and the
    words together are the non-whitespace characters of the message in
    order.  Messages with equal word lists, such as "a  b", " a b " and
    "a\nb", therefore run identically (same result or error, same bus),
    and every message runs like its words joined by single blanks.
    Whatever the message, what is written after the two opening
    commands is the layout of the encoded words, up to the first
    unsupported character if there is one, which is never whitespace:
    the only blanks sent are those the layout inserts. *)
Theorem disp_msg_words_whitespace :
  (forall c,
      space c
      <-> 0x09 <= c <= 0x0D \/ 0x1C <= c <= 0x20 \/ c = 0x85 \/ c = 0xA0
          \/ c = 0x1680 \/ 0x2000 <= c <= 0x200A \/ c = 0x2028
          \/ c = 0x2029 \/ c = 0x202F \/ c = 0x205F \/ c = 0x3000)
  /\ (forall a run b,
         run <> [] -> Forall space run ->
         split (a ++ run ++ b) = split a ++ split b)
  /\ (forall lead msg trail,
         Forall space lead -> Forall space trail ->
         split (lead ++ msg ++ trail) = split msg)
  /\ (forall w, is_word w -> split w = [w])
  /\ (forall words, Forall is_word words -> split (blank_join words) = words)
  /\ (forall msg, Forall is_word (split msg))
  /\ (forall msg, mjoin (split msg) = filter nonspace msg)
  /\ (split a_2sp_b = [[97]; [98]]
      /\ split sp_a_b_sp = [[97]; [98]]
      /\ split a_nl_b = [[97]; [98]])
  /\ (forall m1 m2 s,
         split m1 = split m2 -> disp_msg m1 true s = disp_msg m2 true s)
  /\ (forall msg s,
         disp_msg msg true s = disp_msg (blank_join (split msg)) true s)
  /\ (forall msg s,
         (exists wcodes,
             Forall2 (Forall2 encodes) (split msg) wcodes
             /\ Forall2 encodes (filter nonspace msg) (mjoin wcodes)
             /\ disp_msg msg true s
                = (Return (count_after 0 (split msg) <=? 33),
                   sent (screen_reset_bytes ++ fst (word_layout 0 wcodes)) s))
         \/ (exists ws1 pre c post ws2 wc1 pcodes,
                split msg = ws1 ++ (pre ++ c :: post) :: ws2
                /\ Forall2 (Forall2 encodes) ws1 wc1
                /\ Forall2 encodes pre pcodes
                /\ ~ in_legal_set c /\ nonspace c
                /\ disp_msg msg true s
                   = (Raise (UnsupportedCharacter c),
                      sent (screen_reset_bytes
                            ++ fst (word_layout 0 wc1)
                            ++ (if decide (count_after 0 ws1 <> 16
                                           /\ count_after 0 ws1 <> 0)
                                then [0x20] else [])
                            ++ (if decide (count_after 0 ws1
                                           + len (pre ++ c :: post) > 16)
                                then line2_jump_bytes else [])
                            ++ pcodes) s))).
Proof.
  assert (forall m1 m2 s,
             split m1 = split m2 -> disp_msg m1 true s = disp_msg m2 true s)
    as Hsame.
  { intros m1 m2 s H. unfold disp_msg. by rewrite H. }
  repeat apply conj.
  - apply isspace_set.
  - apply split_run.
  - apply split_trim.
  - apply split_word.
  - apply split_blank_join.
  - apply split_words.
  - apply split_join.
  - reflexivity.
  - reflexivity.
  - reflexivity.
  - exact Hsame.
  - intros msg s. apply Hsame. symmetry.
    apply split_blank_join, split_words.
  - intros msg s.
    destruct (decide (Forall (Forall in_legal_set) (split msg))) as [Hall|Hn].
    + left. destruct (words_legal_encodable _ Hall) as [wcodes Hw].
      exists wcodes. split; [done|]. split.
      * rewrite <- split_join. by apply encoded_words_join.
      * rewrite (disp_msg_words_ok _ _ _ Hw), word_layout_count.
        rewrite <- (count_after_lengths 0 (split msg) wcodes); [done|].
        eapply Forall2_impl; [exact Hw | apply encodes_len].
    + right.
      destruct (first_failure _ _ Hn) as (ws1 & w & ws2 & Hsplit & Hws1 & Hw).
      destruct (first_unsupported w Hw) as (pre & c & post & -> & Hpre & Hc).
      destruct (words_legal_encodable _ Hws1) as [wc1 Hwc1].
      destruct (legal_encodable pre Hpre) as [pcodes Hpcodes].
      exists ws1, pre, c, post, ws2, wc1, pcodes.
      repeat split; try done.
      * pose proof (split_words msg) as Hwords. rewrite Hsplit in Hwords.
        apply Forall_app in Hwords as [_ Hwords].
        apply Forall_cons in Hwords as [[_ Hword] _].
        apply Forall_app in Hword as [_ Hword].
        by apply Forall_cons in Hword as [Hword _].
      * unfold disp_msg, clear_screen, home_cursor.
        rewrite (bind_return _ _ _ _ _ (send_cmd_sent _ _ _)).
        rewrite (bind_return _ _ _ _ _ (send_cmd_sent _ _ _)).
        apply bind_raise. rewrite Hsplit.
        rewrite (words_loop_raise ws1 wc1 Hwc1 _ _ _ _ _ _ _ Hpcodes Hc).
        by rewrite <- !sent_app.
Qed.

Lemma disp_msg_words_whitespace_witness :
  split ([97] ++ [9; 10; 32] ++ [98]) = split [97] ++ split [98]
  /\ split ([32; 9] ++ [97; 32; 98] ++ [10]) = split [97; 32; 98]
  /\ split [97; 98] = [[97; 98]]
  /\ split (blank_join [[97]; [98]]) = [[97]; [98]]
  /\ disp_msg a_2sp_b true lcd0 = disp_msg a_nl_b true lcd0
  /\ disp_msg sp_a_b_sp true lcd0 = disp_msg a_nl_b true lcd0.
Proof.
  destruct disp_msg_words_whitespace
    as (_ & Hrun & Htrim & Hword & Hjoin & _ & _ & _ & Heq & _ & _).
  split; [apply (Hrun [97] [9; 10; 32] [98]); [done | repeat constructor]|].
  split; [apply (Htrim [32; 9] [97; 32; 98] [10]); repeat constructor|].
  split; [apply (Hword [97; 98]); split; [done | repeat constructor]|].
  split; [apply (Hjoin [[97]; [98]]);
          repeat constructor; done|].
  split; [apply (Heq a_2sp_b a_nl_b lcd0); reflexivity|].
  apply (Heq sp_a_b_sp a_nl_b lcd0); reflexivity.
Defined.

End WhitespaceNormalisation.
